(** * Drively: streak engine, session reducer, persistent store, time utilities

    A shallow embedding of the core of the Drively application
    (src/utils/streaks.js, src/utils/time.js, src/utils/storage.js and the
    reducer of src/contexts/DrivingContext.js) together with the properties
    of its specification.

    Modelling conventions.
    - A calendar date string "YYYY-MM-DD" is represented by its day number
      (days since 1970-01-01, see [ymd]); a drive whose [date] is missing or
      falsy carries [None]; date strings are canonical.  [new Date(s)] is
      midnight UTC of that day.
    - The clock ([new Date()]) is explicit: [today] is the number of the
      local calendar day, and [zone] is the offset of local time from UTC in
      minutes (negative west of UTC), taken as constant.  [setHours(0,0,0,0)]
      moves an instant to the midnight that starts its local day, see
      [local_day].
    - JavaScript numbers holding hours are exact rationals ([Q]); counters and
      minutes are integers ([Z]).
    - Optional free-form fields of a drive (weather, skills, supervisor, ...)
      carry no behaviour in the modelled functions and are left out. *)

From Stdlib Require Import ZArith QArith Bool List String Ascii Lia.
From Stdlib Require Import Sorting.Sorted Sorting.Permutation.
Import ListNotations.
Open Scope Z_scope.

(* ================================================================== *)
(** ** Data model *)

Record Drive := mkDrive {
  id : string;
  date : option Z;
  startTime : string;
  endTime : string;
  duration : Z;
  isNightDrive : bool
}.

Record User := mkUser {
  licenseType : option string;
  licenseDate : option string;
  goalDayHours : Q;
  goalNightHours : Q;
  completedDayHours : Q;
  completedNightHours : Q;
  onboardingComplete : bool
}.

Record Streaks := mkStreaks {
  current : Z;
  longest : Z;
  lastDriveDate : option Z;
  freezeDaysUsed : Z;
  freezeDaysThisMonth : Z;
  lastFreezeReset : option Z
}.

Record Settings := mkSettings {
  nightTimeStart : string;
  nightTimeEnd : string;
  backupReminder : bool;
  lastBackupDate : option string;
  temperatureUnit : string
}.

Record State := mkState {
  user : User;
  drives : list Drive;
  streaks : Streaks;
  settings : Settings;
  loading : bool;
  error : option string
}.

(** Day number of a proleptic Gregorian date: what
    [new Date("YYYY-MM-DD").getTime() / 86400000] evaluates to. *)
Definition ymd (y m d : Z) : Z :=
  let y' := if m <=? 2 then y - 1 else y in
  let era := y' / 400 in
  let yoe := y' - era * 400 in
  let mp := (m + 9) mod 12 in
  let doy := (153 * mp + 2) / 5 + d - 1 in
  let doe := yoe * 365 + yoe / 4 - yoe / 100 + doy in
  era * 146097 + doe - 719468.

(* ================================================================== *)
(** ** JavaScript array helpers *)

Section ArrayHelpers.
Context {A : Type}.

(** [Array.prototype.sort(cmp)]: a stable sort; [cmp a b > 0] places [b]
    before [a]. *)
Fixpoint insert_by (cmp : A -> A -> Z) (x : A) (l : list A) : list A :=
  match l with
  | [] => [x]
  | y :: t => if cmp x y >? 0 then y :: insert_by cmp x t else x :: y :: t
  end.

Definition sort_by (cmp : A -> A -> Z) (l : list A) : list A :=
  fold_right (insert_by cmp) [] l.

Variable eqb : A -> A -> bool.

(** [[...new Set(l)]]: the distinct elements of [l] in order of first
    occurrence. *)
Fixpoint set_add_all (seen : list A) (l : list A) : list A :=
  match l with
  | [] => seen
  | x :: t => if existsb (eqb x) seen then set_add_all seen t
              else set_add_all (seen ++ [x]) t
  end.

Definition array_of_set (l : list A) : list A := set_add_all [] l.
End ArrayHelpers.

Definition date_eqb (a b : option Z) : bool :=
  match a, b with
  | Some x, Some y => x =? y
  | None, None => true
  | _, _ => false
  end.

(** Truthiness of a [date] field. *)
Definition truthy_date (d : option Z) : bool :=
  match d with Some _ => true | None => false end.

(** [new Date(date).getTime()] in days; only evaluated on truthy dates. *)
Definition time_of (d : option Z) : Z :=
  match d with Some z => z | None => 0 end.

(** The local calendar day that contains midnight UTC of day [utc_day], in a
    zone [zone] minutes ahead of UTC: the day itself at or east of UTC, the
    day before west of UTC. *)
Definition local_day (zone : Z) (utc_day : Z) : Z :=
  (utc_day * 1440 + zone) / 1440.

(** [const d = new Date(date); d.setHours(0, 0, 0, 0); d.getTime()], as the
    number of the local day that starts at that midnight. *)
Definition local_midnight (zone : Z) (d : option Z) : Z :=
  local_day zone (time_of d).

(* ================================================================== *)
(** ** src/utils/streaks.js *)

(** The [for (const dateStr of uniqueDates)] loop of [calculateCurrentStreak],
    with its two mutable variables [streak] and [checkDate]. *)
Fixpoint current_loop (zone yesterday : Z) (uniqueDates : list (option Z))
                      (streak checkDate : Z) : Z :=
  match uniqueDates with
  | [] => streak
  | dateStr :: rest =>
      let driveDate := local_midnight zone dateStr in
      if (driveDate =? checkDate) || (driveDate =? yesterday) then
        current_loop zone yesterday rest (streak + 1) (checkDate - 1)
      else if driveDate <? checkDate then
        streak
      else
        current_loop zone yesterday rest streak checkDate
  end.

Definition calculateCurrentStreak (zone today : Z) (drives : list Drive) : Z :=
  match drives with
  | [] => 0
  | _ =>
    let sortedDrives :=
      sort_by (fun a b => time_of (date b) - time_of (date a))
              (filter (fun drive => truthy_date (date drive)) drives) in
    match sortedDrives with
    | [] => 0
    | _ =>
      let yesterday := today - 1 in
      let uniqueDates := array_of_set date_eqb (map date sortedDrives) in
      current_loop zone yesterday uniqueDates 0 today
    end
  end.

(** The [for (let i = 1; ...)] loop of [calculateLongestStreak]; [prevDate]
    is [uniqueDates[i - 1]]. *)
Fixpoint longest_loop (prevDate : Z) (rest : list Z)
                      (longestStreak currentStreak : Z) : Z :=
  match rest with
  | [] => longestStreak
  | currentDate :: rest' =>
      let diffDays := currentDate - prevDate in
      if diffDays =? 1 then
        longest_loop currentDate rest'
                     (Z.max longestStreak (currentStreak + 1)) (currentStreak + 1)
      else
        longest_loop currentDate rest' longestStreak 1
  end.

Definition calculateLongestStreak (drives : list Drive) : Z :=
  match drives with
  | [] => 0
  | _ =>
    let uniqueDates :=
      map time_of
        (sort_by (fun a b => time_of a - time_of b)
           (filter truthy_date (array_of_set date_eqb (map date drives)))) in
    match uniqueDates with
    | [] => 0
    | first :: rest => longest_loop first rest 1 1
    end
  end.

Definition canUseFreezeDay (freezeDaysUsedThisMonth maxFreezeDaysPerMonth : Z) : bool :=
  freezeDaysUsedThisMonth <? maxFreezeDaysPerMonth.

Definition defaultMaxFreezeDaysPerMonth : Z := 10.

(* ================================================================== *)
(** ** src/contexts/DrivingContext.js *)

(** Payloads that are spread over an object ([{...state.user, ...payload}]):
    a field that is present overrides, an absent one keeps the old value. *)
Record UserPatch := mkUserPatch {
  p_licenseType : option (option string);
  p_licenseDate : option (option string);
  p_goalDayHours : option Q;
  p_goalNightHours : option Q;
  p_completedDayHours : option Q;
  p_completedNightHours : option Q;
  p_onboardingComplete : option bool
}.

Record StreaksPatch := mkStreaksPatch {
  p_current : option Z;
  p_longest : option Z;
  p_lastDriveDate : option (option Z);
  p_freezeDaysUsed : option Z;
  p_freezeDaysThisMonth : option Z;
  p_lastFreezeReset : option (option Z)
}.

Record SettingsPatch := mkSettingsPatch {
  p_nightTimeStart : option string;
  p_nightTimeEnd : option string;
  p_backupReminder : option bool;
  p_lastBackupDate : option (option string);
  p_temperatureUnit : option string
}.

Record LoadPayload := mkLoadPayload {
  p_user : option User;
  p_drives : option (list Drive);
  p_streaks : option Streaks;
  p_settings : option Settings
}.

Definition overridden {A : Type} (old : A) (new : option A) : A :=
  match new with Some v => v | None => old end.

Definition spread_user (u : User) (p : UserPatch) : User :=
  mkUser (overridden (licenseType u) (p_licenseType p))
         (overridden (licenseDate u) (p_licenseDate p))
         (overridden (goalDayHours u) (p_goalDayHours p))
         (overridden (goalNightHours u) (p_goalNightHours p))
         (overridden (completedDayHours u) (p_completedDayHours p))
         (overridden (completedNightHours u) (p_completedNightHours p))
         (overridden (onboardingComplete u) (p_onboardingComplete p)).

Definition spread_streaks (s : Streaks) (p : StreaksPatch) : Streaks :=
  mkStreaks (overridden (current s) (p_current p))
            (overridden (longest s) (p_longest p))
            (overridden (lastDriveDate s) (p_lastDriveDate p))
            (overridden (freezeDaysUsed s) (p_freezeDaysUsed p))
            (overridden (freezeDaysThisMonth s) (p_freezeDaysThisMonth p))
            (overridden (lastFreezeReset s) (p_lastFreezeReset p)).

Definition spread_settings (s : Settings) (p : SettingsPatch) : Settings :=
  mkSettings (overridden (nightTimeStart s) (p_nightTimeStart p))
             (overridden (nightTimeEnd s) (p_nightTimeEnd p))
             (overridden (backupReminder s) (p_backupReminder p))
             (overridden (lastBackupDate s) (p_lastBackupDate p))
             (overridden (temperatureUnit s) (p_temperatureUnit p)).

Inductive Action :=
| LOAD_DATA (payload : LoadPayload)
| SET_USER_INFO (payload : UserPatch)
| ADD_DRIVE (payload : Drive)
| UPDATE_DRIVE (payload : Drive)
| DELETE_DRIVE (payload : string)
| UPDATE_STREAKS (payload : StreaksPatch)
| USE_FREEZE_DAY
| UPDATE_SETTINGS (payload : SettingsPatch)
| COMPLETE_ONBOARDING
| RESET_DATA
| UNKNOWN (type : string).

Definition initialState : State :=
  mkState
    (mkUser None None 50 10 0 0 false)
    []
    (mkStreaks 0 0 None 0 0 None)
    (mkSettings "18:00" "06:00" true None "metric")
    true
    None.

(** [duration / 60]. *)
Definition hours_of (d : Drive) : Q := (inject_Z (duration d) / 60)%Q.

(** [l.filter(keep).reduce((sum, d) => sum + d.duration / 60, 0)]. *)
Definition sum_hours (keep : Drive -> bool) (l : list Drive) : Q :=
  fold_left (fun sum d => (sum + hours_of d)%Q) (filter keep l) 0%Q.

Definition drivingReducer (zone today : Z) (state : State) (action : Action) : State :=
  match action with
  | LOAD_DATA payload =>
      mkState (overridden (user state) (p_user payload))
              (overridden (drives state) (p_drives payload))
              (overridden (streaks state) (p_streaks payload))
              (overridden (settings state) (p_settings payload))
              false None
  | SET_USER_INFO payload =>
      mkState (spread_user (user state) payload)
              (drives state) (streaks state) (settings state)
              (loading state) (error state)
  | ADD_DRIVE payload =>
      let newDrives := drives state ++ [payload] in
      let updatedStreaks :=
        mkStreaks (calculateCurrentStreak zone today newDrives)
                  (Z.max (longest (streaks state))
                         (calculateLongestStreak newDrives))
                  (date payload)
                  (freezeDaysUsed (streaks state))
                  (freezeDaysThisMonth (streaks state))
                  (lastFreezeReset (streaks state)) in
      let u := user state in
      mkState
        (mkUser (licenseType u) (licenseDate u) (goalDayHours u) (goalNightHours u)
                (completedDayHours u +
                   (if isNightDrive payload then 0 else hours_of payload))%Q
                (completedNightHours u +
                   (if isNightDrive payload then hours_of payload else 0))%Q
                (onboardingComplete u))
        newDrives updatedStreaks (settings state)
        (loading state) (error state)
  | UPDATE_DRIVE payload =>
      let updatedDrives :=
        map (fun drive => if String.eqb (id drive) (id payload) then payload else drive)
            (drives state) in
      let dayHours := sum_hours (fun d => negb (isNightDrive d)) updatedDrives in
      let nightHours := sum_hours (fun d => isNightDrive d) updatedDrives in
      let s := streaks state in
      let u := user state in
      mkState
        (mkUser (licenseType u) (licenseDate u) (goalDayHours u) (goalNightHours u)
                dayHours nightHours (onboardingComplete u))
        updatedDrives
        (mkStreaks (calculateCurrentStreak zone today updatedDrives)
                   (calculateLongestStreak updatedDrives)
                   (lastDriveDate s) (freezeDaysUsed s) (freezeDaysThisMonth s)
                   (lastFreezeReset s))
        (settings state) (loading state) (error state)
  | DELETE_DRIVE payload =>
      let filteredDrives :=
        filter (fun drive => negb (String.eqb (id drive) payload)) (drives state) in
      let remainingDayHours := sum_hours (fun d => negb (isNightDrive d)) filteredDrives in
      let remainingNightHours := sum_hours (fun d => isNightDrive d) filteredDrives in
      let s := streaks state in
      let u := user state in
      mkState
        (mkUser (licenseType u) (licenseDate u) (goalDayHours u) (goalNightHours u)
                remainingDayHours remainingNightHours (onboardingComplete u))
        filteredDrives
        (mkStreaks (calculateCurrentStreak zone today filteredDrives)
                   (calculateLongestStreak filteredDrives)
                   (lastDriveDate s) (freezeDaysUsed s) (freezeDaysThisMonth s)
                   (lastFreezeReset s))
        (settings state) (loading state) (error state)
  | UPDATE_STREAKS payload =>
      mkState (user state) (drives state)
              (spread_streaks (streaks state) payload)
              (settings state) (loading state) (error state)
  | USE_FREEZE_DAY =>
      let s := streaks state in
      mkState (user state) (drives state)
              (mkStreaks (current s) (longest s) (lastDriveDate s)
                         (freezeDaysUsed s + 1) (freezeDaysThisMonth s + 1)
                         (lastFreezeReset s))
              (settings state) (loading state) (error state)
  | UPDATE_SETTINGS payload =>
      mkState (user state) (drives state) (streaks state)
              (spread_settings (settings state) payload)
              (loading state) (error state)
  | COMPLETE_ONBOARDING =>
      let u := user state in
      mkState
        (mkUser (licenseType u) (licenseDate u) (goalDayHours u) (goalNightHours u)
                (completedDayHours u) (completedNightHours u) true)
        (drives state) (streaks state) (settings state)
        (loading state) (error state)
  | RESET_DATA =>
      mkState (user initialState) (drives initialState) (streaks initialState)
              (settings initialState) false (error initialState)
  | UNKNOWN _ => state
  end.

(** The transitions offered by the Coordinator (the context's action
    creators other than the internal [LOAD_DATA] and [UPDATE_STREAKS]). *)
Definition coordinator_transition (a : Action) : bool :=
  match a with
  | SET_USER_INFO _ | ADD_DRIVE _ | UPDATE_DRIVE _ | DELETE_DRIVE _
  | USE_FREEZE_DAY | UPDATE_SETTINGS _ | COMPLETE_ONBOARDING | RESET_DATA => true
  | _ => false
  end.

(** States reachable from [initialState]; the clock may show any day, in
    any zone, at each transition. *)
Inductive reachable : State -> Prop :=
| reach_init : reachable initialState
| reach_step : forall s zone today a,
    reachable s -> coordinator_transition a = true ->
    reachable (drivingReducer zone today s a).

(* ================================================================== *)
(** ** src/utils/storage.js *)

(** Values produced by [JSON.parse]. *)
#[local] Set Warnings "-register-all".
Inductive json :=
| JNull
| JBool (b : bool)
| JNum (n : Z)
| JStr (s : string)
| JArr (items : list json)
| JObj (fields : list (string * json)).

(** The text of a file.  [JSON.parse] and [JSON.stringify] belong to the
    platform; they are modelled by their contract: a text is either the
    serialisation of a value, which parses back to it, or it is rejected by
    the parser. *)
Inductive text :=
| Malformed (raw : string)
| Stringified (value : json).

Inductive exn :=
| IOError
| SyntaxError
| TypeError
| Error (message : string).

Inductive path := DATA_DIR | MAIN_DATA_FILE | BACKUP_DATA_FILE.

(** Completed calls of the file-system provider, oldest first. *)
Inductive fs_call :=
| GetInfo (p : path)
| MakeDirectory (p : path)
| ReadAsString (p : path)
| WriteAsString (p : path) (contents : text)
| Copy (from to : path)
| Delete (p : path).

(** The device: the directory and the two files, the fate of the coming
    provider calls ([true]: the call is rejected with an I/O error; an
    exhausted list means no more failures), and the journal of the calls that
    completed. *)
Record FileSystem := mkFS {
  dirExists : bool;
  mainFile : option text;
  backupFile : option text;
  faults : list bool;
  journal : list fs_call
}.

Inductive outcome (A : Type) :=
| Returned (a : A)
| Thrown (e : exn).
Arguments Returned {A} a.
Arguments Thrown {A} e.

(** An [async] computation over the device. *)
Definition Async (A : Type) : Type := FileSystem -> outcome A * FileSystem.

Definition ret {A : Type} (a : A) : Async A := fun fs => (Returned a, fs).

Definition throw {A : Type} (e : exn) : Async A := fun fs => (Thrown e, fs).

Definition bind {A B : Type} (m : Async A) (k : A -> Async B) : Async B :=
  fun fs =>
    match m fs with
    | (Returned a, fs') => k a fs'
    | (Thrown e, fs') => (Thrown e, fs')
    end.

Definition try_catch {A : Type} (body : Async A) (handler : exn -> Async A) : Async A :=
  fun fs =>
    match body fs with
    | (Returned a, fs') => (Returned a, fs')
    | (Thrown e, fs') => handler e fs'
    end.

Declare Scope async_scope.
Delimit Scope async_scope with async.
Notation "x <- m ;; k" := (bind m (fun x => k))
  (at level 61, m at next level, right associativity) : async_scope.
Notation "m ;; k" := (bind m (fun _ => k))
  (at level 61, right associativity) : async_scope.
Open Scope async_scope.

Definition file_at (fs : FileSystem) (p : path) : option text :=
  match p with
  | DATA_DIR => None
  | MAIN_DATA_FILE => mainFile fs
  | BACKUP_DATA_FILE => backupFile fs
  end.

Definition exists_at (fs : FileSystem) (p : path) : bool :=
  match p with
  | DATA_DIR => dirExists fs
  | _ => match file_at fs p with Some _ => true | None => false end
  end.

Definition put_file (fs : FileSystem) (p : path) (t : option text) : FileSystem :=
  match p with
  | DATA_DIR => fs
  | MAIN_DATA_FILE => mkFS (dirExists fs) t (backupFile fs) (faults fs) (journal fs)
  | BACKUP_DATA_FILE => mkFS (dirExists fs) (mainFile fs) t (faults fs) (journal fs)
  end.

Definition completed (c : fs_call) (fs : FileSystem) : FileSystem :=
  mkFS (dirExists fs) (mainFile fs) (backupFile fs) (faults fs) (journal fs ++ [c]).

(** One call of the provider: it is rejected when the device says so, and
    then changes nothing. *)
Definition provider_call {A : Type} (run : Async A) : Async A :=
  fun fs =>
    match faults fs with
    | true :: later =>
        (Thrown IOError,
         mkFS (dirExists fs) (mainFile fs) (backupFile fs) later (journal fs))
    | false :: later =>
        run (mkFS (dirExists fs) (mainFile fs) (backupFile fs) later (journal fs))
    | [] => run fs
    end.

Definition getInfoAsync (p : path) : Async bool :=
  provider_call (fun fs => (Returned (exists_at fs p), completed (GetInfo p) fs)).

Definition makeDirectoryAsync (p : path) : Async unit :=
  provider_call (fun fs =>
    (Returned tt,
     completed (MakeDirectory p)
       (mkFS true (mainFile fs) (backupFile fs) (faults fs) (journal fs)))).

Definition readAsStringAsync (p : path) : Async text :=
  provider_call (fun fs =>
    match file_at fs p with
    | Some t => (Returned t, completed (ReadAsString p) fs)
    | None => (Thrown IOError, fs)
    end).

Definition writeAsStringAsync (p : path) (contents : text) : Async unit :=
  provider_call (fun fs =>
    if dirExists fs
    then (Returned tt, completed (WriteAsString p contents) (put_file fs p (Some contents)))
    else (Thrown IOError, fs)).

Definition copyAsync (from to : path) : Async unit :=
  provider_call (fun fs =>
    match file_at fs from with
    | Some t => (Returned tt, completed (Copy from to) (put_file fs to (Some t)))
    | None => (Thrown IOError, fs)
    end).

Definition JSON_parse (t : text) : Async json :=
  match t with
  | Stringified value => ret value
  | Malformed _ => throw SyntaxError
  end.

Definition JSON_stringify (data : json) : text := Stringified data.

Definition DEFAULT_DATA : json :=
  JObj [
    ("user", JObj [("licenseType", JNull); ("licenseDate", JNull);
                   ("goalDayHours", JNum 50); ("goalNightHours", JNum 10);
                   ("completedDayHours", JNum 0); ("completedNightHours", JNum 0);
                   ("onboardingComplete", JBool false)]);
    ("drives", JArr []);
    ("streaks", JObj [("current", JNum 0); ("longest", JNum 0);
                      ("lastDriveDate", JNull); ("freezeDaysUsed", JNum 0);
                      ("freezeDaysThisMonth", JNum 0)]);
    ("settings", JObj [("nightTimeStart", JStr "18:00"); ("nightTimeEnd", JStr "06:00");
                       ("backupReminder", JBool true); ("lastBackupDate", JNull)]);
    ("version", JStr "1.0.1")
  ]%string.

Fixpoint lookup (key : string) (fields : list (string * json)) : option json :=
  match fields with
  | [] => None
  | (k, v) :: rest => if String.eqb k key then Some v else lookup key rest
  end.

(** [data.key]: [None] is [undefined]; reading a property of [null] throws. *)
Definition property (data : json) (key : string) : Async (option json) :=
  match data with
  | JNull => throw TypeError
  | JObj fields => ret (lookup key fields)
  | _ => ret None
  end.

Definition truthy (v : option json) : bool :=
  match v with
  | None => false
  | Some JNull => false
  | Some (JBool b) => b
  | Some (JNum n) => negb (n =? 0)
  | Some (JStr s) => negb (String.eqb s "")
  | Some (JArr _) => true
  | Some (JObj _) => true
  end.

Definition ensureDirectoryExists : Async unit :=
  dirInfo <- getInfoAsync DATA_DIR ;;
  if negb dirInfo then makeDirectoryAsync DATA_DIR else ret tt.

Definition saveData (data : json) : Async bool :=
  try_catch
    (ensureDirectoryExists ;;
     mainFileInfo <- getInfoAsync MAIN_DATA_FILE ;;
     (if mainFileInfo then copyAsync MAIN_DATA_FILE BACKUP_DATA_FILE else ret tt) ;;
     let dataString := JSON_stringify data in
     writeAsStringAsync MAIN_DATA_FILE dataString ;;
     ret true)
    (fun error => ret false).

(** [!data.user || !data.drives || !data.streaks || !data.settings]. *)
Definition structure_invalid (data : json) : Async bool :=
  u <- property data "user" ;;
  if negb (truthy u) then ret true else
  d <- property data "drives" ;;
  if negb (truthy d) then ret true else
  s <- property data "streaks" ;;
  if negb (truthy s) then ret true else
  t <- property data "settings" ;;
  ret (negb (truthy t)).

Definition loadData : Async json :=
  try_catch
    (ensureDirectoryExists ;;
     mainFileInfo <- getInfoAsync MAIN_DATA_FILE ;;
     if negb mainFileInfo then
       saveData DEFAULT_DATA ;;
       ret DEFAULT_DATA
     else
       dataString <- readAsStringAsync MAIN_DATA_FILE ;;
       data <- JSON_parse dataString ;;
       invalid <- structure_invalid data ;;
       if invalid then throw (Error "Invalid data structure") else ret data)
    (fun error =>
       restored <-
         try_catch
           (backupFileInfo <- getInfoAsync BACKUP_DATA_FILE ;;
            if backupFileInfo then
              backupString <- readAsStringAsync BACKUP_DATA_FILE ;;
              backupData <- JSON_parse backupString ;;
              saveData backupData ;;
              ret (Some backupData)
            else ret None)
           (fun backupError => ret None) ;;
       match restored with
       | Some backupData => ret backupData
       | None =>
           saveData DEFAULT_DATA ;;
           ret DEFAULT_DATA
       end).

(** The validation [loadData] applies to the primary file, as a predicate. *)
Definition valid_document (data : json) : bool :=
  match data with
  | JObj fields =>
      truthy (lookup "user" fields) && truthy (lookup "drives" fields) &&
      truthy (lookup "streaks" fields) && truthy (lookup "settings" fields)
  | _ => false
  end.

(* ================================================================== *)
(** ** src/utils/time.js *)

(** A JavaScript number as the time utilities meet it: [NaN] or an integer
    that a double holds exactly. *)
Inductive number :=
| NaN
| Fin (z : Z).

Definition num_mul (a b : number) : number :=
  match a, b with
  | Fin x, Fin y => Fin (x * y)
  | _, _ => NaN
  end.

Definition num_add (a b : number) : number :=
  match a, b with
  | Fin x, Fin y => Fin (x + y)
  | _, _ => NaN
  end.

(** Comparisons with [NaN] are false. *)
Definition num_gt (a b : number) : bool :=
  match a, b with Fin x, Fin y => x >? y | _, _ => false end.
Definition num_ge (a b : number) : bool :=
  match a, b with Fin x, Fin y => x >=? y | _, _ => false end.
Definition num_le (a b : number) : bool :=
  match a, b with Fin x, Fin y => x <=? y | _, _ => false end.
Definition num_lt (a b : number) : bool :=
  match a, b with Fin x, Fin y => x <? y | _, _ => false end.

Definition code (c : ascii) : Z := Z.of_N (N_of_ascii c).

Definition between (lo hi : ascii) (c : ascii) : bool :=
  (code lo <=? code c) && (code c <=? code hi).

Definition is_digit (c : ascii) : bool := between "0" "9" c.

(** White space that [Number] strips: TAB, LF, VT, FF, CR and space. *)
Definition is_space (c : ascii) : bool :=
  ((9 <=? code c) && (code c <=? 13)) || (code c =? 32).

(** Characters that occur in some numeric literal other than a plain run of
    decimal digits: signs, the decimal point, exponent and radix markers,
    hexadecimal digits and the letters of [Infinity]. *)
Definition literal_char (c : ascii) : bool :=
  is_digit c || between "a" "f" c || between "A" "F" c ||
  existsb (Ascii.eqb c) ["+"; "-"; "."; "x"; "X"; "o"; "O"; "I"; "n"; "i"; "t"; "y"]%char.

Fixpoint drop_spaces (s : list ascii) : list ascii :=
  match s with
  | c :: rest => if is_space c then drop_spaces rest else s
  | [] => []
  end.

Definition trim (s : list ascii) : list ascii :=
  rev (drop_spaces (rev (drop_spaces s))).

Definition digits_value (s : list ascii) : Z :=
  fold_left (fun acc c => 10 * acc + (code c - 48)) s 0.

(** [Number(s)] on the fragment the time utilities need.  The result is
    [None] where this model does not say what [Number] returns: a non-ASCII
    character, more than 14 digits (the value or the arithmetic on it may be
    rounded), or a text that may be a signed, fractional, exponent, radix or
    [Infinity] literal. *)
Definition Number (s : list ascii) : option number :=
  if existsb (fun c => 128 <=? code c) s then None else
  let body := trim s in
  match body with
  | [] => Some (Fin 0)
  | _ =>
    if forallb is_digit body then
      if (List.length body <=? 14)%nat then Some (Fin (digits_value body)) else None
    else if forallb literal_char body then None
    else Some NaN
  end.

(** [s.split(sep)] for a one-character separator. *)
Fixpoint split (sep : ascii) (s : list ascii) : list (list ascii) :=
  match s with
  | [] => [[]]
  | c :: rest =>
      if Ascii.eqb c sep then [] :: split sep rest
      else match split sep rest with
           | piece :: pieces => (c :: piece) :: pieces
           | [] => [[c]]
           end
  end.

(** An array element read by destructuring, converted for arithmetic:
    a missing element is [undefined], which converts to [NaN]. *)
Definition element (i : nat) (parts : list (option number)) : option number :=
  match nth_error parts i with
  | Some n => n
  | None => Some NaN
  end.

(** [hours * 60 + minutes]: with [NaN] on either side the result is [NaN]
    whatever number the other side is. *)
Definition timeToMinutes (time : string) : option number :=
  let parts := map Number (split ":" (list_ascii_of_string time)) in
  match element 0 parts, element 1 parts with
  | Some NaN, _ => Some NaN
  | _, Some NaN => Some NaN
  | Some hours, Some minutes => Some (num_add (num_mul hours (Fin 60)) minutes)
  | _, _ => None
  end.

Definition isNightTime (time nightStart nightEnd : string) : option bool :=
  match timeToMinutes time, timeToMinutes nightStart, timeToMinutes nightEnd with
  | Some timeMinutes, Some startMinutes, Some endMinutes =>
      Some (if num_gt startMinutes endMinutes
            then num_ge timeMinutes startMinutes || num_le timeMinutes endMinutes
            else num_ge timeMinutes startMinutes && num_le timeMinutes endMinutes)
  | _, _, _ => None
  end.

(** [/^([0-1]?[0-9]|2[0-3]):[0-5][0-9]$/.test(time)]. *)
Definition isValidTime (time : string) : bool :=
  match list_ascii_of_string time with
  | [h; colon; m1; m2] =>
      is_digit h && Ascii.eqb colon ":" && between "0" "5" m1 && is_digit m2
  | [h1; h2; colon; m1; m2] =>
      ((between "0" "1" h1 && is_digit h2) || (Ascii.eqb h1 "2" && between "0" "3" h2))
      && Ascii.eqb colon ":" && between "0" "5" m1 && is_digit m2
  | _ => false
  end.

(** The text of a time of day as the application writes it (two digits
    each). *)
Definition two_digits (n : Z) : list ascii :=
  [ascii_of_N (Z.to_N (48 + n / 10)); ascii_of_N (Z.to_N (48 + n mod 10))].

Definition clock_text (h m : Z) : string :=
  string_of_list_ascii (two_digits h ++ [":"%char] ++ two_digits m).

(* ================================================================== *)
(** ** Sample data *)

Definition drive_on (i : string) (d : Z) : Drive :=
  mkDrive i (Some d) "10:00" "11:00" 60 false.

(** A state as the application holds it after loading. *)
Definition loadedState : State :=
  mkState (user initialState) [] (streaks initialState) (settings initialState)
          false None.

(** A drive with a negative duration. *)
Definition negative_drive : Drive :=
  mkDrive "1700000000000" (Some (ymd 2024 1 3)) "10:00" "09:30" (-30) false.

(** A ninety-minute day drive. *)
Definition ninety_minutes (i : string) (d : Z) : Drive :=
  mkDrive i (Some d) "10:00" "11:30" 90 false.

(** A device whose primary file does not parse and whose backup parses to an
    object without any of the required fields. *)
Definition corrupt_primary_hollow_backup : FileSystem :=
  mkFS true (Some (Malformed "{ user: ")) (Some (Stringified (JObj []))) [] [].

(** A device holding a saved default document and no backup yet. *)
Definition device_after_first_run : FileSystem :=
  mkFS true (Some (Stringified DEFAULT_DATA)) None [] [].

(** The number of provider calls one [saveData] makes when none is rejected:
    two or three [getInfoAsync]/[makeDirectoryAsync], the copy when a primary
    exists, and the write. *)
Definition save_calls (fs : FileSystem) : nat :=
  ((if dirExists fs then 1 else 2) + 1 +
   (match mainFile fs with Some _ => 1 | None => 0 end) + 1)%nat.

(** The order of the completed calls of one [saveData]: the primary is
    written only by the last call and, when a primary existed before, only
    directly after the call that copied it to the backup; apart from that
    copy and that write no call changes a file.  [copied] says that the call
    just before was the copy. *)
Fixpoint backup_first (had_primary copied : bool) (calls : list fs_call) : bool :=
  match calls with
  | [] => true
  | WriteAsString MAIN_DATA_FILE _ :: rest =>
      implb had_primary copied && match rest with [] => true | _ :: _ => false end
  | Copy MAIN_DATA_FILE BACKUP_DATA_FILE :: rest =>
      had_primary && backup_first had_primary true rest
  | GetInfo _ :: rest => backup_first had_primary false rest
  | MakeDirectory _ :: rest => backup_first had_primary false rest
  | _ => false
  end.

Definition had_primary (fs : FileSystem) : bool :=
  match mainFile fs with Some _ => true | None => false end.

(** Some call among the next [n] is rejected. *)
Definition rejected_within (n : nat) (fs : FileSystem) : bool :=
  existsb (fun b => b) (firstn n (faults fs)).

(** [timeToMinutes] reads the text of [h]:[m] back as [h * 60 + m], and
    [isValidTime] accepts that text. *)
Definition clock_text_checked (h m : Z) : bool :=
  isValidTime (clock_text h m) &&
  match timeToMinutes (clock_text h m) with
  | Some (Fin z) => z =? h * 60 + m
  | _ => false
  end.

Definition every_clock_text_checked : bool :=
  forallb (fun h => forallb (fun m => clock_text_checked (Z.of_nat h) (Z.of_nat m))
                            (seq 0 60))
          (seq 0 24).

(* ================================================================== *)
(** ** Streaks: the days with a drive, and the walk as specified *)

(** Some drive of the list is dated [day]. *)
Definition drove_on (drives : list Drive) (day : Z) : bool :=
  existsb (fun drive => date_eqb (date drive) (Some day)) drives.

(** Some drive of the list has a date that the code reads as local day
    [day]. *)
Definition read_on (zone : Z) (drives : list Drive) (day : Z) : bool :=
  existsb (fun drive =>
             match date drive with
             | Some d => local_day zone d =? day
             | None => false
             end) drives.

(** [current_loop] on the local days of the dates. *)
Fixpoint streak_walk (yesterday : Z) (localDays : list Z) (streak checkDate : Z) : Z :=
  match localDays with
  | [] => streak
  | driveDate :: rest =>
      if (driveDate =? checkDate) || (driveDate =? yesterday) then
        streak_walk yesterday rest (streak + 1) (checkDate - 1)
      else if driveDate <? checkDate then
        streak
      else
        streak_walk yesterday rest streak checkDate
  end.


(** A drive is dated after [today]. *)
Definition future_dated (today : Z) (drive : Drive) : bool :=
  match date drive with
  | Some day => today <? day
  | None => false
  end.




(* ================================================================== *)
(** ** src/utils/streaks.js, continued *)

(** [getDaysSinceLastDrive]: both instants are moved to the midnight of
    their local day and the difference is floored to whole days.  [zone] is
    the offset in force on the day of the last drive and [change] the number
    of minutes by which the offset has changed since (60 after clocks went
    forward by an hour, 0 without daylight saving), so the two midnights are
    [(today - lastDrive) * 1440 - change] minutes apart. *)
Definition getDaysSinceLastDrive (zone change today : Z)
                                 (lastDriveDate : option Z) : Z :=
  match lastDriveDate with
  | None => 0
  | Some _ =>
      let lastDrive := local_midnight zone lastDriveDate in
      let diffTime := (today - lastDrive) * 1440 - change in
      diffTime / 1440
  end.

Definition shouldSuggestFreezeDay (zone change today : Z)
                                  (lastDriveDate : option Z)
                                  (freezeDaysUsedThisMonth : Z) : bool :=
  let daysSince := getDaysSinceLastDrive zone change today lastDriveDate in
  (daysSince >=? 2) &&
  canUseFreezeDay freezeDaysUsedThisMonth defaultMaxFreezeDaysPerMonth.

(* ================================================================== *)
(** ** The dashboard and the logging screen *)

(** [handleFreezeDay] of the dashboard.  [confirmed] is the user's answer to
    the "Use Freeze Day?" alert; when no freeze day is left only the
    "exhausted" alert is shown. *)
Definition handleFreezeDay (zone today : Z) (confirmed : bool) (state : State) : State :=
  if negb (canUseFreezeDay (freezeDaysThisMonth (streaks state))
                           defaultMaxFreezeDaysPerMonth)
  then state
  else if confirmed then drivingReducer zone today state USE_FREEZE_DAY
  else state.

(** [Math.max(1, Math.floor(actualDurationMs / 60000))]. *)
Definition actualDurationMinutes (elapsedTime : Z) : Z :=
  Z.max 1 (elapsedTime / 60000).

(* ================================================================== *)
(** ** src/utils/time.js, continued *)

Definition num_sub (a b : number) : number :=
  match a, b with
  | Fin x, Fin y => Fin (x - y)
  | _, _ => NaN
  end.

Definition calculateDuration (startTime endTime : string) : option number :=
  match timeToMinutes startTime, timeToMinutes endTime with
  | Some startMinutes, Some endMinutes =>
      Some (if num_lt endMinutes startMinutes
            then num_add (num_sub (Fin (24 * 60)) startMinutes) endMinutes
            else num_sub endMinutes startMinutes)
  | _, _ => None
  end.

(** What the getters [getFullYear], [getMonth] and [getDate] of a [Date]
    return in local time. *)
Record CalendarDate := mkCalendarDate {
  getFullYear : Z;
  getMonth : Z;
  getDate : Z
}.

(** The calendar date of a day number (the inverse of [ymd]), with the month
    counted from 0 as [getMonth] does. *)
Definition date_of_day (day : Z) : CalendarDate :=
  let z := day + 719468 in
  let era := z / 146097 in
  let doe := z - era * 146097 in
  let yoe := (doe - doe / 1460 + doe / 36524 - doe / 146096) / 365 in
  let doy := doe - (365 * yoe + yoe / 4 - yoe / 100) in
  let mp := (5 * doy + 2) / 153 in
  let d := doy - (153 * mp + 2) / 5 + 1 in
  let m := if mp <? 10 then mp + 3 else mp - 9 in
  let y := yoe + era * 400 in
  mkCalendarDate (if m <=? 2 then y + 1 else y) (m - 1) d.

(** [new Date(birthDate)] read through the local getters: the local date of
    midnight UTC of the day the text names. *)
Definition birth_as_read (zone : Z) (birthDate : Z) : CalendarDate :=
  date_of_day (local_day zone birthDate).

Definition calculateAge (zone : Z) (birthDate : Z) (today : CalendarDate) : Z :=
  let birth := birth_as_read zone birthDate in
  let age := getFullYear today - getFullYear birth in
  let monthDiff := getMonth today - getMonth birth in
  if (monthDiff <? 0) || ((monthDiff =? 0) && (getDate today <? getDate birth))
  then age - 1
  else age.

(** One calendar date is earlier than another. *)
Definition earlier (a b : CalendarDate) : Prop :=
  getFullYear a < getFullYear b \/
  (getFullYear a = getFullYear b /\
   (getMonth a < getMonth b \/
    (getMonth a = getMonth b /\ getDate a < getDate b))).

(** The anniversary of a date [n] years on. *)
Definition years_on (n : Z) (d : CalendarDate) : CalendarDate :=
  mkCalendarDate (getFullYear d + n) (getMonth d) (getDate d).

(* ================================================================== *)
(** ** src/utils/storage.js, continued *)

Definition deleteAsync (p : path) : Async unit :=
  provider_call (fun fs =>
    match file_at fs p with
    | Some _ => (Returned tt, completed (Delete p) (put_file fs p None))
    | None => (Thrown IOError, fs)
    end).

Definition exportDataAsJSON : Async (option text) :=
  try_catch
    (data <- loadData ;;
     ret (Some (JSON_stringify data)))
    (fun error => ret None).

Definition clearAllData : Async bool :=
  try_catch
    (ensureDirectoryExists ;;
     mainFileInfo <- getInfoAsync MAIN_DATA_FILE ;;
     (if mainFileInfo then deleteAsync MAIN_DATA_FILE else ret tt) ;;
     backupFileInfo <- getInfoAsync BACKUP_DATA_FILE ;;
     (if backupFileInfo then deleteAsync BACKUP_DATA_FILE else ret tt) ;;
     ret true)
    (fun error => ret false).

(** A file text that [loadData] does not accept as the primary: it does not
    parse, or it parses to a value that fails the validation. *)
Definition unusable (t : text) : bool :=
  match t with
  | Malformed _ => true
  | Stringified value => negb (valid_document value)
  end.

(* ================================================================== *)
(** ** Properties of states *)

(** The hour totals are the sums over the drives of their kind. *)
Definition hours_consistent (state : State) : Prop :=
  (completedDayHours (user state) ==
     sum_hours (fun d => negb (isNightDrive d)) (drives state))%Q /\
  (completedNightHours (user state) ==
     sum_hours (fun d => isNightDrive d) (drives state))%Q.

(** Actions that write the hour totals from their payload. *)
Definition overwrites_hours (a : Action) : bool :=
  match a with
  | LOAD_DATA _ | SET_USER_INFO _ => true
  | _ => false
  end.

(** [l'] is [l] with some elements struck out: the elements of [l'] are
    elements of [l], in the same order. *)
Inductive kept_in_order {A : Type} : list A -> list A -> Prop :=
| kept_nil : kept_in_order [] []
| kept_keep : forall x l' l, kept_in_order l' l -> kept_in_order (x :: l') (x :: l)
| kept_drop : forall x l' l, kept_in_order l' l -> kept_in_order l' (x :: l).

(** No two drives share an id. *)
Definition unique_ids (l : list Drive) : Prop := NoDup (map id l).

(** What an action must bring for the ids to stay distinct: an added drive
    has an id that is not in use, loaded drives have distinct ids. *)
Definition brings_distinct_ids (state : State) (a : Action) : Prop :=
  match a with
  | ADD_DRIVE payload => ~ In (id payload) (map id (drives state))
  | LOAD_DATA payload =>
      match p_drives payload with
      | Some l => unique_ids l
      | None => True
      end
  | _ => True
  end.

(** Total logged hours. *)
Definition total_hours (state : State) : Q :=
  (completedDayHours (user state) + completedNightHours (user state))%Q.

(* ================================================================== *)
(** ** Sanity checks *)

Example current_three_days :
  calculateCurrentStreak 0 (ymd 2024 1 3)
    [drive_on "a" (ymd 2024 1 1); drive_on "b" (ymd 2024 1 2);
     drive_on "c" (ymd 2024 1 3)] = 3.
Proof. reflexivity. Qed.

(** Five hours west of UTC every date is read as the day before: the same
    drives on the same local day count 1. *)
Example current_three_days_west_of_utc :
  local_day (-300) (ymd 2024 1 3) = ymd 2024 1 2 /\
  local_day 60 (ymd 2024 1 3) = ymd 2024 1 3 /\
  calculateCurrentStreak (-300) (ymd 2024 1 3)
    [drive_on "a" (ymd 2024 1 1); drive_on "b" (ymd 2024 1 2);
     drive_on "c" (ymd 2024 1 3)] = 1.
Proof. repeat split; reflexivity. Qed.

Example date_of_day_examples :
  date_of_day (ymd 2008 3 15) = mkCalendarDate 2008 2 15 /\
  date_of_day (ymd 2024 2 29) = mkCalendarDate 2024 1 29 /\
  date_of_day (ymd 1999 12 31) = mkCalendarDate 1999 11 31 /\
  date_of_day 0 = mkCalendarDate 1970 0 1 /\
  birth_as_read (-300) (ymd 2008 3 15) = mkCalendarDate 2008 2 14.
Proof. repeat split; reflexivity. Qed.

Example longest_three_days :
  calculateLongestStreak
    [drive_on "a" (ymd 2024 1 3); drive_on "b" (ymd 2024 1 1);
     drive_on "c" (ymd 2024 1 2); drive_on "d" (ymd 2024 1 2);
     drive_on "e" (ymd 2024 2 2)] = 3.
Proof. reflexivity. Qed.

Example ymd_epoch : ymd 1970 1 1 = 0 /\ ymd 2024 1 3 = 19725.
Proof. split; reflexivity. Qed.

Example timeToMinutes_examples :
  timeToMinutes "18:30" = Some (Fin 1110) /\
  timeToMinutes "6:05" = Some (Fin 365) /\
  timeToMinutes " 7 : 15 " = Some (Fin 435) /\
  timeToMinutes "1:2:3" = Some (Fin 62) /\
  timeToMinutes "" = Some NaN /\
  timeToMinutes "12" = Some NaN /\
  timeToMinutes "12:3z" = Some NaN /\
  timeToMinutes "1.5:00" = None.
Proof. repeat split; reflexivity. Qed.

Example night_window_wraps :
  isNightTime "23:30" "22:00" "05:00" = Some true /\
  isNightTime "12:00" "22:00" "05:00" = Some false.
Proof. split; reflexivity. Qed.

Example isValidTime_examples :
  isValidTime "23:59" = true /\ isValidTime "7:00" = true /\
  isValidTime "24:00" = false /\ isValidTime ":" = false /\
  isValidTime "12:60" = false /\ isValidTime (clock_text 9 5) = true.
Proof. repeat split; reflexivity. Qed.

(* ================================================================== *)
(** ** Sorting and the distinct elements of an array *)

Section SortFacts.
Context {A : Type}.
Variable cmp : A -> A -> Z.

Lemma insert_by_perm (x : A) (l : list A) : Permutation (insert_by cmp x l) (x :: l).
Proof.
  induction l as [|y t IH]; simpl; [apply Permutation_refl|].
  destruct (cmp x y >? 0).
  - apply perm_trans with (y :: x :: t); [apply perm_skip, IH|apply perm_swap].
  - apply Permutation_refl.
Qed.

Lemma sort_by_perm (l : list A) : Permutation (sort_by cmp l) l.
Proof.
  induction l as [|x t IH]; simpl; [apply perm_nil|].
  apply perm_trans with (x :: sort_by cmp t);
    [apply insert_by_perm|apply perm_skip, IH].
Qed.

Variable R : A -> A -> Prop.
Hypothesis R_trans : forall x y z, R x y -> R y z -> R x z.
Hypothesis cmp_pos : forall x y, cmp x y > 0 -> R y x.
Hypothesis cmp_nonpos : forall x y, cmp x y <= 0 -> R x y.

Lemma insert_by_sorted (x : A) (l : list A) :
  StronglySorted R l -> StronglySorted R (insert_by cmp x l).
Proof.
  induction 1 as [|y t St IH Fy]; simpl.
  - constructor; constructor.
  - destruct (cmp x y >? 0) eqn:E.
    + apply Z.gtb_lt in E. constructor; [exact IH|].
      apply Forall_forall. intros z Hz.
      apply (Permutation_in _ (insert_by_perm x t)) in Hz.
      destruct Hz as [<-|Hz]; [apply cmp_pos; lia|].
      rewrite Forall_forall in Fy. apply Fy, Hz.
    + rewrite Z.gtb_ltb in E. apply Z.ltb_ge in E.
      assert (Rxy : R x y) by (apply cmp_nonpos; exact E).
      constructor; [constructor; assumption|].
      constructor; [exact Rxy|].
      eapply Forall_impl; [|exact Fy]. intros z Ryz. eapply R_trans; eassumption.
Qed.

Lemma sort_by_sorted (l : list A) : StronglySorted R (sort_by cmp l).
Proof.
  induction l as [|x t IH]; simpl; [constructor|].
  apply insert_by_sorted, IH.
Qed.
End SortFacts.

Section SetFacts.
Context {A : Type}.
Variable eqb : A -> A -> bool.
Hypothesis eqb_eq : forall x y, eqb x y = true <-> x = y.

Lemma existsb_eqb_In (x : A) (l : list A) : existsb (eqb x) l = true <-> In x l.
Proof.
  rewrite existsb_exists. split.
  - intros (y & Hy & E). apply eqb_eq in E. subst y. exact Hy.
  - intros H. exists x. split; [exact H|]. apply eqb_eq. reflexivity.
Qed.

Lemma set_add_all_In (l seen : list A) (x : A) :
  In x (set_add_all eqb seen l) <-> In x seen \/ In x l.
Proof.
  revert seen. induction l as [|y t IH]; intros seen; simpl.
  - tauto.
  - destruct (existsb (eqb y) seen) eqn:E.
    + apply existsb_eqb_In in E. rewrite IH. split; [tauto|].
      intros [H|[<-|H]]; tauto.
    + rewrite IH, in_app_iff. simpl. tauto.
Qed.

Lemma set_add_all_NoDup (l seen : list A) :
  NoDup seen -> NoDup (set_add_all eqb seen l).
Proof.
  revert seen. induction l as [|y t IH]; intros seen N; simpl; [exact N|].
  destruct (existsb (eqb y) seen) eqn:E; [apply IH, N|].
  apply IH. apply NoDup_app; [exact N|constructor; [intros []|constructor]|].
  intros z Hz [<-|[]]. apply existsb_eqb_In in Hz. congruence.
Qed.

Variable R : A -> A -> Prop.

Lemma sorted_without (a b : list A) (x : A) :
  StronglySorted R (a ++ x :: b) -> StronglySorted R (a ++ b).
Proof.
  induction a as [|y a IH]; simpl; intros S; inversion S as [|? ? S' F]; subst.
  - exact S'.
  - constructor; [apply IH, S'|].
    rewrite Forall_forall in *. intros z Hz. apply F.
    rewrite in_app_iff in *. simpl. tauto.
Qed.

Lemma set_add_all_sorted (l seen : list A) :
  StronglySorted R (seen ++ l) -> StronglySorted R (set_add_all eqb seen l).
Proof.
  revert seen. induction l as [|y t IH]; intros seen S; simpl.
  - rewrite app_nil_r in S. exact S.
  - destruct (existsb (eqb y) seen).
    + apply IH. eapply sorted_without, S.
    + apply IH. rewrite <- app_assoc. exact S.
Qed.
End SetFacts.

Lemma date_eqb_eq (a b : option Z) : date_eqb a b = true <-> a = b.
Proof.
  destruct a as [x|], b as [y|]; simpl; try (split; congruence).
  rewrite Z.eqb_eq. split; congruence.
Qed.

Lemma drove_on_In (drives : list Drive) (day : Z) :
  drove_on drives day = true <-> exists d, In d drives /\ date d = Some day.
Proof.
  unfold drove_on. rewrite existsb_exists.
  split; intros (d & Hd & E); exists d; (split; [exact Hd|]); apply date_eqb_eq, E.
Qed.

Lemma StronglySorted_map {A B : Type} (f : A -> B) (R : B -> B -> Prop) (l : list A) :
  StronglySorted (fun a b => R (f a) (f b)) l -> StronglySorted R (map f l).
Proof.
  induction 1 as [|x l S IH F]; simpl; constructor; [exact IH|].
  rewrite Forall_map. exact F.
Qed.

Lemma strictly_descending (l : list Z) :
  StronglySorted Z.ge l -> NoDup l -> StronglySorted Z.gt l.
Proof.
  induction 1 as [|x l S IH F]; intros N; constructor;
    inversion N as [|? ? Nx N']; subst; [apply IH, N'|].
  rewrite Forall_forall in *. intros z Hz.
  specialize (F z Hz). assert (z <> x) by congruence. lia.
Qed.

Lemma strictly_ascending (l : list Z) :
  StronglySorted Z.le l -> NoDup l -> StronglySorted Z.lt l.
Proof.
  induction 1 as [|x l S IH F]; intros N; constructor;
    inversion N as [|? ? Nx N']; subst; [apply IH, N'|].
  rewrite Forall_forall in *. intros z Hz.
  specialize (F z Hz). assert (z <> x) by congruence. lia.
Qed.

Lemma truthy_dates_are_days (l : list (option Z)) :
  Forall (fun d => truthy_date d = true) l -> map Some (map time_of l) = l.
Proof.
  induction 1 as [|[z|] l T F IH]; simpl; [reflexivity| |discriminate T].
  rewrite IH. reflexivity.
Qed.

(** The unique dates that [calculateCurrentStreak] walks: the days with a
    drive, each once, latest first. *)
Lemma current_unique_dates (zone today : Z) (drives : list Drive) :
  exists days,
    StronglySorted Z.gt days /\
    (forall z, In z days <-> drove_on drives z = true) /\
    calculateCurrentStreak zone today drives =
      current_loop zone (today - 1) (map Some days) 0 today.
Proof.
  set (cmp := fun a b : Drive => time_of (date b) - time_of (date a)).
  set (sortedDrives := sort_by cmp (filter (fun drive => truthy_date (date drive)) drives)).
  set (uniqueDates := array_of_set date_eqb (map date sortedDrives)).
  assert (Mem : forall d, In d uniqueDates <->
                          truthy_date d = true /\ exists x, In x drives /\ date x = d).
  { intros d. unfold uniqueDates, array_of_set.
    rewrite (set_add_all_In date_eqb date_eqb_eq). simpl. rewrite in_map_iff.
    split.
    - intros [[]|(x & E & Hx)].
      apply (Permutation_in _ (sort_by_perm cmp _)) in Hx.
      apply filter_In in Hx. destruct Hx as [Hx T]. subst d.
      split; [exact T|]. exists x; split; [exact Hx|reflexivity].
    - intros (T & x & Hx & E). right. exists x. split; [exact E|].
      apply (Permutation_in _ (Permutation_sym (sort_by_perm cmp _))).
      apply filter_In. subst d. split; assumption. }
  assert (Truthy : Forall (fun d => truthy_date d = true) uniqueDates).
  { apply Forall_forall. intros d Hd. apply Mem in Hd. tauto. }
  assert (Desc : StronglySorted (fun a b => time_of a >= time_of b) uniqueDates).
  { unfold uniqueDates, array_of_set. apply set_add_all_sorted. simpl.
    apply (StronglySorted_map date (fun a b => time_of a >= time_of b)).
    apply (sort_by_sorted cmp (fun a b => time_of (date a) >= time_of (date b)));
      unfold cmp; intros; lia. }
  assert (Distinct : NoDup uniqueDates).
  { unfold uniqueDates, array_of_set.
    apply (set_add_all_NoDup date_eqb date_eqb_eq). constructor. }
  exists (map time_of uniqueDates).
  pose proof (truthy_dates_are_days _ Truthy) as Back.
  split; [|split].
  - apply strictly_descending.
    + apply (StronglySorted_map time_of Z.ge), Desc.
    + rewrite <- Back in Distinct. apply NoDup_map_inv in Distinct. exact Distinct.
  - intros z. rewrite drove_on_In.
    assert (In z (map time_of uniqueDates) <-> In (Some z) uniqueDates) as ->.
    { rewrite <- Back at 2. split.
      - apply in_map.
      - rewrite in_map_iff. intros (y & E & Hy). congruence. }
    rewrite Mem. simpl. tauto.
  - rewrite Back. unfold calculateCurrentStreak.
    fold cmp. fold sortedDrives. fold uniqueDates.
    destruct drives as [|d0 drives']; [reflexivity|].
    destruct sortedDrives as [|s0 sorted'] eqn:E; reflexivity.
Qed.

(** The unique dates that [calculateLongestStreak] scans: the same days,
    earliest first. *)
Lemma longest_unique_dates (drives : list Drive) :
  exists days,
    StronglySorted Z.lt days /\
    (forall z, In z days <-> drove_on drives z = true) /\
    calculateLongestStreak drives =
      match days with
      | [] => 0
      | first :: rest => longest_loop first rest 1 1
      end.
Proof.
  set (cmp := fun a b : option Z => time_of a - time_of b).
  set (sorted := sort_by cmp (filter truthy_date (array_of_set date_eqb (map date drives)))).
  assert (Mem : forall d, In d sorted <->
                          truthy_date d = true /\ exists x, In x drives /\ date x = d).
  { intros d. unfold sorted. split.
    - intros H. apply (Permutation_in _ (sort_by_perm cmp _)) in H.
      apply filter_In in H. destruct H as [H T]. split; [exact T|].
      apply (set_add_all_In date_eqb date_eqb_eq) in H. simpl in H.
      destruct H as [[]|H]. apply in_map_iff in H. destruct H as (x & E & Hx).
      exists x. tauto.
    - intros (T & x & Hx & E).
      apply (Permutation_in _ (Permutation_sym (sort_by_perm cmp _))).
      apply filter_In. split; [|exact T].
      apply (set_add_all_In date_eqb date_eqb_eq). right.
      apply in_map_iff. exists x. tauto. }
  assert (Truthy : Forall (fun d => truthy_date d = true) sorted).
  { apply Forall_forall. intros d Hd. apply Mem in Hd. tauto. }
  assert (Asc : StronglySorted (fun a b => time_of a <= time_of b) sorted).
  { apply (sort_by_sorted cmp (fun a b => time_of a <= time_of b));
      unfold cmp; intros; lia. }
  assert (Distinct : NoDup sorted).
  { apply (Permutation_NoDup (Permutation_sym (sort_by_perm cmp _))).
    apply NoDup_filter.
    apply (set_add_all_NoDup date_eqb date_eqb_eq). constructor. }
  exists (map time_of sorted).
  pose proof (truthy_dates_are_days _ Truthy) as Back.
  split; [|split].
  - apply strictly_ascending.
    + apply (StronglySorted_map time_of Z.le), Asc.
    + rewrite <- Back in Distinct. apply NoDup_map_inv in Distinct. exact Distinct.
  - intros z. rewrite drove_on_In.
    assert (In z (map time_of sorted) <-> In (Some z) sorted) as ->.
    { rewrite <- Back at 2. split.
      - apply in_map.
      - rewrite in_map_iff. intros (y & E & Hy). congruence. }
    rewrite Mem. simpl. tauto.
  - unfold calculateLongestStreak. fold cmp. fold sorted.
    destruct drives as [|d0 drives']; reflexivity.
Qed.


(* ================================================================== *)
(** ** Dates as the current streak reads them *)

Lemma local_day_shift (zone d : Z) : local_day zone d = d + zone / 1440.
Proof. unfold local_day. apply Z.div_add_l. lia. Qed.

Lemma local_day_east (zone d : Z) : 0 <= zone < 1440 -> local_day zone d = d.
Proof.
  intros H. rewrite local_day_shift, Z.div_small by exact H. lia.
Qed.

Lemma local_day_west (zone d : Z) : -1440 <= zone < 0 -> local_day zone d = d - 1.
Proof.
  intros H. rewrite local_day_shift.
  replace (zone / 1440) with (-1); [lia|].
  apply (Z.div_unique_pos zone 1440 (-1) (zone + 1440)); lia.
Qed.

Lemma read_on_drove_on (zone : Z) (drives : list Drive) (z : Z) :
  read_on zone drives z = drove_on drives (z - zone / 1440).
Proof.
  unfold read_on, drove_on.
  induction drives as [|drive drives IH]; [reflexivity|].
  cbn [existsb]. rewrite IH. f_equal.
  destruct (date drive) as [d|]; [|reflexivity].
  cbn [date_eqb]. rewrite local_day_shift.
  destruct (Z.eqb_spec (d + zone / 1440) z), (Z.eqb_spec d (z - zone / 1440));
    try reflexivity; lia.
Qed.

Lemma read_on_east (zone : Z) (drives : list Drive) (z : Z) :
  0 <= zone < 1440 -> read_on zone drives z = drove_on drives z.
Proof.
  intros H. rewrite read_on_drove_on, Z.div_small by exact H. f_equal. lia.
Qed.

Lemma current_loop_as_walk (zone yesterday : Z) (days : list Z) : forall streak check,
  current_loop zone yesterday (map Some days) streak check =
  streak_walk yesterday (map (local_day zone) days) streak check.
Proof.
  induction days as [|d days IH]; intros streak check; [reflexivity|].
  cbn [map current_loop streak_walk local_midnight time_of].
  rewrite !IH. reflexivity.
Qed.

(** The local days that [calculateCurrentStreak] walks: the days on which
    the dates of the drives are read, each once, latest first. *)
Lemma current_local_days (zone today : Z) (drives : list Drive) :
  exists days,
    StronglySorted Z.gt days /\
    (forall z, In z days <-> read_on zone drives z = true) /\
    calculateCurrentStreak zone today drives =
      streak_walk (today - 1) days 0 today.
Proof.
  destruct (current_unique_dates zone today drives) as (days & S & Mem & E).
  exists (map (local_day zone) days). split; [|split].
  - apply (StronglySorted_map (local_day zone) Z.gt).
    clear Mem E. induction S as [|a l S IH F]; constructor; [exact IH|].
    eapply Forall_impl; [|exact F]. intros b Hb.
    rewrite !local_day_shift. lia.
  - intros z. rewrite read_on_drove_on, <- Mem, in_map_iff. split.
    + intros (d & E' & Hd). rewrite local_day_shift in E'.
      replace (z - zone / 1440) with d by lia. exact Hd.
    + intros H. exists (z - zone / 1440). split; [|exact H].
      rewrite local_day_shift. lia.
  - rewrite E. apply current_loop_as_walk.
Qed.

(* ================================================================== *)
(** ** The two loops *)

Lemma longest_loop_keeps_best (rest : list Z) : forall prev best cur,
  best <= longest_loop prev rest best cur.
Proof.
  induction rest as [|c rest IH]; intros prev best cur; simpl; [lia|].
  destruct (c - prev =? 1).
  - specialize (IH c (Z.max best (cur + 1)) (cur + 1)). lia.
  - apply IH.
Qed.

(** From a day on, a run of [k] further consecutive days adds [k] to the
    running streak. *)
Lemma longest_loop_run (rest : list Z) : forall prev best cur k,
  StronglySorted Z.lt (prev :: rest) ->
  cur <= best -> 0 <= k ->
  (forall j, 1 <= j <= k -> In (prev + j) rest) ->
  cur + k <= longest_loop prev rest best cur.
Proof.
  induction rest as [|c rest IH]; intros prev best cur k S Hb Hk Run.
  - simpl. destruct (Z.eq_dec k 0) as [->|]; [lia|].
    destruct (Run 1); lia.
  - destruct (Z.eq_dec k 0) as [->|Hk0].
    + pose proof (longest_loop_keeps_best (c :: rest) prev best cur). lia.
    + inversion S as [|? ? S' F]; subst.
      inversion S' as [|? ? S'' F']; subst.
      assert (c = prev + 1) as ->.
      { inversion F as [|? ? Hc _]; subst.
        destruct (Run 1 ltac:(lia)) as [E|H]; [lia|].
        rewrite Forall_forall in F'. specialize (F' _ H). lia. }
      simpl. replace (prev + 1 - prev =? 1) with true by (symmetry; apply Z.eqb_eq; lia).
      specialize (IH (prev + 1) (Z.max best (cur + 1)) (cur + 1) (k - 1) S').
      assert (cur + 1 + (k - 1) <=
              longest_loop (prev + 1) rest (Z.max best (cur + 1)) (cur + 1)).
      { apply IH; [lia|lia|].
        intros j Hj. destruct (Run (j + 1) ltac:(lia)) as [E|H]; [lia|].
        replace (prev + 1 + j) with (prev + (j + 1)) by lia. exact H. }
      lia.
Qed.

(** A run of [k] consecutive days anywhere among the scanned days is found. *)
Lemma longest_loop_finds_run (rest : list Z) : forall prev best cur a k,
  StronglySorted Z.lt (prev :: rest) ->
  1 <= cur <= best -> 1 <= k ->
  (forall j, 0 <= j < k -> In (a + j) (prev :: rest)) ->
  k <= longest_loop prev rest best cur.
Proof.
  induction rest as [|c rest IH]; intros prev best cur a k S Hc Hk Run.
  - simpl. destruct (Z.eq_dec k 1) as [->|]; [lia|].
    destruct (Run 0 ltac:(lia)) as [E|[]]. destruct (Run 1 ltac:(lia)) as [E'|[]]. lia.
  - destruct (Z.eq_dec a prev) as [->|Ha].
    + assert (cur + (k - 1) <= longest_loop prev (c :: rest) best cur).
      { apply longest_loop_run; [exact S|lia|lia|].
        intros j Hj. destruct (Run j ltac:(lia)) as [E|H]; [lia|exact H]. }
      lia.
    + inversion S as [|? ? S' F]; subst.
      assert (Above : prev < a).
      { destruct (Run 0 ltac:(lia)) as [E|H]; [lia|].
        rewrite Forall_forall in F. specialize (F _ H). lia. }
      assert (Run' : forall j, 0 <= j < k -> In (a + j) (c :: rest)).
      { intros j Hj. destruct (Run j Hj) as [E|H]; [lia|exact H]. }
      simpl. destruct (c - prev =? 1).
      * apply (IH c _ _ a k S'); [lia|lia|exact Run'].
      * apply (IH c _ _ a k S'); [lia|lia|exact Run'].
Qed.

(** Once the check date is at or before yesterday and no remaining day is
    after it, the walk counts the run of consecutive days ending at the
    check date and nothing else. *)
Lemma walk_counts_run (days : list Z) : forall yesterday streak check,
  StronglySorted Z.gt days ->
  (forall z, In z days -> z <= check) ->
  check <= yesterday ->
  exists k, 0 <= k /\
    streak_walk yesterday days streak check = streak + k /\
    (forall j, 0 <= j < k -> In (check - j) days) /\
    ~ In (check - k) days.
Proof.
  induction days as [|d days IH]; intros yesterday streak check S Below Hy.
  - exists 0. simpl. repeat split; [lia|lia|intros; lia|tauto].
  - inversion S as [|? ? S' F]; subst. rewrite Forall_forall in F.
    assert (d <= check) by (apply Below; left; reflexivity).
    simpl. destruct (Z.eq_dec d check) as [->|Hd].
    + rewrite Z.eqb_refl. simpl.
      destruct (IH yesterday (streak + 1) (check - 1) S') as (k & Hk & E & Run & Stop);
        [intros z Hz; specialize (F z Hz); lia|lia|].
      exists (k + 1). repeat split; [lia|lia| |].
      * intros j Hj. destruct (Z.eq_dec j 0) as [->|]; [left; lia|].
        right. replace (check - j) with (check - 1 - (j - 1)) by lia.
        apply Run. lia.
      * intros [E'|H']; [lia|].
        apply Stop. replace (check - 1 - k) with (check - (k + 1)) by lia. exact H'.
    + replace (d =? check) with false by (symmetry; apply Z.eqb_neq; exact Hd).
      replace (d =? yesterday) with false by (symmetry; apply Z.eqb_neq; lia).
      replace (d <? check) with true by (symmetry; apply Z.ltb_lt; lia).
      simpl. exists 0. repeat split; [lia|lia|intros; lia|].
      rewrite Z.sub_0_r. intros [E|H']; [lia|]. specialize (F _ H'). lia.
Qed.

(** The whole walk, from check date [today]: days after today are passed
    over; then the result is the length of the run of consecutive days
    ending today, or 1 when yesterday is there and today is not, or 0. *)
Lemma walk_from_today (days : list Z) : forall today,
  StronglySorted Z.gt days ->
  let result := streak_walk (today - 1) days 0 today in
  (In today days ->
     1 <= result /\
     (forall j, 0 <= j < result -> In (today - j) days) /\
     ~ In (today - result) days) /\
  (~ In today days -> In (today - 1) days -> result = 1) /\
  (~ In today days -> ~ In (today - 1) days -> result = 0).
Proof.
  induction days as [|d days IH]; intros today S.
  - simpl. repeat split; tauto.
  - inversion S as [|? ? S' F]; subst. rewrite Forall_forall in F.
    specialize (IH today S'). cbv zeta in IH |- *.
    destruct (Z.lt_trichotomy d today) as [Lt|[->|Gt]].
    + (* on or before yesterday *)
      destruct (Z.eq_dec d (today - 1)) as [->|Hd].
      * simpl. replace (today - 1 =? today) with false by (symmetry; apply Z.eqb_neq; lia).
        rewrite Z.eqb_refl. simpl.
        destruct (walk_counts_run days (today - 1) 1 (today - 1) S')
          as (k & Hk & E & Run & Stop);
          [intros z Hz; specialize (F z Hz); lia|lia|].
        assert (k = 0) as ->.
        { destruct (Z.eq_dec k 0) as [|Hk0]; [assumption|].
          specialize (Run 0 ltac:(lia)). rewrite Z.sub_0_r in Run.
          specialize (F _ Run). lia. }
        rewrite E. split; [|split].
        -- intros [E'|H']; [lia|]. specialize (F _ H'). lia.
        -- reflexivity.
        -- intros _ N. exfalso. apply N. left. reflexivity.
      * simpl. replace (d =? today) with false by (symmetry; apply Z.eqb_neq; lia).
        replace (d =? today - 1) with false by (symmetry; apply Z.eqb_neq; lia).
        replace (d <? today) with true by (symmetry; apply Z.ltb_lt; lia).
        simpl. split; [|split].
        -- intros [E'|H']; [lia|]. specialize (F _ H'). lia.
        -- intros _ [E'|H']; [lia|]. specialize (F _ H'). lia.
        -- reflexivity.
    + (* today *)
      simpl. rewrite Z.eqb_refl. simpl.
      destruct (walk_counts_run days (today - 1) 1 (today - 1) S')
        as (k & Hk & E & Run & Stop);
        [intros z Hz; specialize (F z Hz); lia|lia|].
      rewrite E. split; [|split].
      * intros _. split; [lia|]. split.
        -- intros j Hj. destruct (Z.eq_dec j 0) as [->|]; [left; lia|].
           right. replace (today - j) with (today - 1 - (j - 1)) by lia.
           apply Run. lia.
        -- intros [E'|H']; [lia|]. apply Stop.
           replace (today - 1 - k) with (today - (1 + k)) by lia. exact H'.
      * intros N. exfalso. apply N. left. reflexivity.
      * intros N. exfalso. apply N. left. reflexivity.
    + (* after today: passed over *)
      simpl. replace (d =? today) with false by (symmetry; apply Z.eqb_neq; lia).
      replace (d =? today - 1) with false by (symmetry; apply Z.eqb_neq; lia).
      replace (d <? today) with false by (symmetry; apply Z.ltb_ge; lia).
      simpl. destruct IH as (I1 & I2 & I3). split; [|split].
      * intros [E'|H']; [lia|]. destruct (I1 H') as (R1 & R2 & R3).
        split; [exact R1|]. split.
        -- intros j Hj. right. apply R2, Hj.
        -- intros [E'|H'']; [lia|]. apply R3, H''.
      * intros N [E'|H']; [lia|]. apply I2; [|exact H']. intros H''. apply N. right. exact H''.
      * intros N N'. apply I3; intros H''; [apply N|apply N']; right; exact H''.
Qed.

(** What [calculateCurrentStreak] computes, in terms of the local days on
    which the dates of the drives are read. *)
Lemma current_streak_characterised (zone today : Z) (drives : list Drive) :
  let result := calculateCurrentStreak zone today drives in
  (read_on zone drives today = true ->
     1 <= result /\
     (forall j, 0 <= j < result -> read_on zone drives (today - j) = true) /\
     read_on zone drives (today - result) = false) /\
  (read_on zone drives today = false -> read_on zone drives (today - 1) = true ->
     result = 1) /\
  (read_on zone drives today = false -> read_on zone drives (today - 1) = false ->
     result = 0).
Proof.
  destruct (current_local_days zone today drives) as (days & S & Mem & E).
  cbv zeta. rewrite E.
  destruct (walk_from_today days today S) as (I1 & I2 & I3).
  split; [|split].
  - intros H. apply Mem in H. destruct (I1 H) as (R1 & R2 & R3).
    split; [exact R1|]. split.
    + intros j Hj. apply Mem, R2, Hj.
    + apply not_true_is_false. intros H'. apply R3, Mem, H'.
  - intros N H. apply I2; [|apply Mem, H]. intros H'. apply Mem in H'. congruence.
  - intros N N'. apply I3; intros H'; apply Mem in H'; congruence.
Qed.


(* ================================================================== *)
(** ** The current streak *)





Lemma drove_on_without_future (today : Z) (drives : list Drive) (z : Z) :
  drove_on (filter (fun drive => negb (future_dated today drive)) drives) z = true <->
  drove_on drives z = true /\ z <= today.
Proof.
  rewrite !drove_on_In. split.
  - intros (d & Hd & E). apply filter_In in Hd. destruct Hd as [Hd K].
    unfold future_dated in K. rewrite E in K.
    apply negb_true_iff, Z.ltb_ge in K.
    split; [exists d; tauto|exact K].
  - intros [(d & Hd & E) Le]. exists d. split; [|exact E].
    apply filter_In. split; [exact Hd|].
    unfold future_dated. rewrite E. apply negb_true_iff, Z.ltb_ge. exact Le.
Qed.

(** A date read as a day after the check date (and other than yesterday) is
    passed over: it neither counts nor stops the walk. *)
Lemma current_loop_passes_later_date : forall zone yesterday d rest streak check,
  check < local_day zone d -> local_day zone d <> yesterday ->
  current_loop zone yesterday (Some d :: rest) streak check =
  current_loop zone yesterday rest streak check.
Proof.
  intros zone yesterday d rest streak check Later Ny.
  cbn [current_loop]. unfold local_midnight. cbn [time_of].
  replace (local_day zone d =? check) with false by (symmetry; apply Z.eqb_neq; lia).
  replace (local_day zone d =? yesterday) with false by (symmetry; apply Z.eqb_neq; lia).
  replace (local_day zone d <? check) with false by (symmetry; apply Z.ltb_ge; lia).
  reflexivity.
Qed.

(** At or east of UTC, where a date is read as its own day, the drives dated
    after today do not count. *)
Lemma future_drives_skipped_east_of_utc : forall zone today drives,
  0 <= zone < 1440 ->
  calculateCurrentStreak zone today drives =
  calculateCurrentStreak zone today
    (filter (fun drive => negb (future_dated today drive)) drives).
Proof.
  intros zone today drives East.
  set (kept := filter (fun drive => negb (future_dated today drive)) drives).
  pose proof (current_streak_characterised zone today drives) as (A1 & A2 & A3).
  pose proof (current_streak_characterised zone today kept) as (B1 & B2 & B3).
  cbv zeta in *.
  assert (Same : forall z, z <= today -> read_on zone kept z = read_on zone drives z).
  { intros z Hz. rewrite !read_on_east by exact East.
    pose proof (drove_on_without_future today drives z) as W.
    fold kept in W.
    destruct (drove_on kept z), (drove_on drives z); try reflexivity.
    - destruct W as [W _]. destruct (W eq_refl); discriminate.
    - destruct W as [_ W]. apply W. split; [reflexivity|exact Hz]. }
  destruct (read_on zone drives today) eqn:T.
  - destruct (A1 eq_refl) as (K1 & Run1 & Stop1).
    assert (T' : read_on zone kept today = true) by (rewrite Same; [exact T|lia]).
    destruct (B1 T') as (K2 & Run2 & Stop2).
    set (k1 := calculateCurrentStreak zone today drives) in *.
    set (k2 := calculateCurrentStreak zone today kept) in *.
    destruct (Z.lt_trichotomy k1 k2) as [L|[E|L]]; [|exact E|].
    + specialize (Run2 k1 ltac:(lia)). rewrite Same in Run2 by lia. congruence.
    + specialize (Run1 k2 ltac:(lia)). rewrite <- Same in Run1 by lia. congruence.
  - assert (T' : read_on zone kept today = false) by (rewrite Same; [exact T|lia]).
    destruct (read_on zone drives (today - 1)) eqn:Y.
    + assert (Y' : read_on zone kept (today - 1) = true) by (rewrite Same; [exact Y|lia]).
      rewrite (A2 eq_refl eq_refl), (B2 T' Y'). reflexivity.
    + assert (Y' : read_on zone kept (today - 1) = false) by (rewrite Same; [exact Y|lia]).
      rewrite (A3 eq_refl eq_refl), (B3 T' Y'). reflexivity.
Qed.

(** C10.  The code at the failing input: five hours west of UTC, on local
    2024-01-03, a single drive dated 2024-01-04.  The drive is dated after
    today, yet its date is read as local 2024-01-03 and it counts: the result
    is 1, and 0 on the list without it.  At or east of UTC the two results
    agree for every list ([future_drives_skipped_east_of_utc]). *)
Theorem future_drive_counts_west_of_utc :
  let zone := -300 in
  let today := ymd 2024 1 3 in
  let drives := [drive_on "a" (ymd 2024 1 4)] in
  let kept := filter (fun drive => negb (future_dated today drive)) drives in
  forallb (future_dated today) drives = true /\
  kept = [] /\
  local_day zone (ymd 2024 1 4) = today /\
  calculateCurrentStreak zone today drives = 1 /\
  calculateCurrentStreak zone today kept = 0.
Proof. repeat split; reflexivity. Qed.


(** A defect beside the point of the gap: a run of session days that ends
    yesterday is admitted by the comparison with [yesterday] but counted as
    1, since the check date is moved to yesterday instead of past it. *)
Example run_ending_yesterday_counts_one :
  let today := ymd 2024 1 5 in
  calculateCurrentStreak 0 today
    [drive_on "a" (today - 3); drive_on "b" (today - 2); drive_on "c" (today - 1)] = 1.
Proof. reflexivity. Qed.



(* ================================================================== *)
(** ** The reducer: freeze days, payloads, hour totals *)

(** C9.  [USE_FREEZE_DAY] adds exactly one to [freezeDaysUsed] and to
    [freezeDaysThisMonth] in every state, whatever the monthly counter is
    (also when [canUseFreezeDay] is already false), and changes nothing
    else: user, drives, settings and the streak fields [current], [longest],
    [lastDriveDate] and [lastFreezeReset] are the old ones. *)
Theorem use_freeze_day_frame : forall zone today state,
  let state' := drivingReducer zone today state USE_FREEZE_DAY in
  freezeDaysUsed (streaks state') = freezeDaysUsed (streaks state) + 1 /\
  freezeDaysThisMonth (streaks state') = freezeDaysThisMonth (streaks state) + 1 /\
  user state' = user state /\
  drives state' = drives state /\
  settings state' = settings state /\
  current (streaks state') = current (streaks state) /\
  longest (streaks state') = longest (streaks state) /\
  lastDriveDate (streaks state') = lastDriveDate (streaks state) /\
  lastFreezeReset (streaks state') = lastFreezeReset (streaks state) /\
  loading state' = loading state /\
  error state' = error state.
Proof.
  intros zone today state; cbn; repeat split.
Qed.

(** The cap is not consulted: from a month counter of ten, where
    [canUseFreezeDay] refuses, the transition still counts to eleven. *)
Example use_freeze_day_past_cap :
  let s := drivingReducer 0 0 loadedState
             (UPDATE_STREAKS (mkStreaksPatch None None None (Some 10) (Some 10) None)) in
  canUseFreezeDay (freezeDaysThisMonth (streaks s)) defaultMaxFreezeDaysPerMonth = false /\
  freezeDaysThisMonth (streaks (drivingReducer 0 0 s USE_FREEZE_DAY)) = 11.
Proof. split; reflexivity. Qed.

Lemma app_one_neq {A : Type} (l : list A) (x : A) : l ++ [x] <> l.
Proof.
  intro H. apply (f_equal (@List.length A)) in H.
  rewrite length_app in H; simpl in H; lia.
Qed.

(** C7, as claimed: an [ADD_DRIVE] whose payload has a negative duration
    would leave the state as it was.  It does not. *)
Lemma add_negative_duration_not_rejected :
  duration negative_drive < 0 /\
  drivingReducer 0 (ymd 2024 1 3) loadedState (ADD_DRIVE negative_drive) <> loadedState.
Proof.
  split; [reflexivity|].
  intro H. apply (f_equal drives) in H. discriminate H.
Qed.

(** C7, amended.  The Coordinator does not reject an [ADD_DRIVE] payload,
    valid or not: in every state and for every payload the drive is appended
    as it is and [duration / 60] is added to the total of its kind, so the
    resulting state is never the state before; with a negative duration the
    total hours go down. *)
Theorem add_drive_never_rejected : forall zone today state payload,
  let state' := drivingReducer zone today state (ADD_DRIVE payload) in
  drives state' = drives state ++ [payload] /\
  (completedDayHours (user state') ==
     completedDayHours (user state) +
     (if isNightDrive payload then 0 else inject_Z (duration payload) / 60))%Q /\
  (completedNightHours (user state') ==
     completedNightHours (user state) +
     (if isNightDrive payload then inject_Z (duration payload) / 60 else 0))%Q /\
  state' <> state /\
  (duration payload < 0 -> (total_hours state' < total_hours state)%Q).
Proof.
  intros zone today state payload; cbn.
  split; [reflexivity|].
  split; [reflexivity|].
  split; [reflexivity|].
  split.
  - intro H. apply (f_equal drives) in H. cbn in H.
    exact (app_one_neq _ _ H).
  - intros Neg. unfold total_hours. cbn. unfold hours_of.
    assert (P : (inject_Z (duration payload) / 60 < 0)%Q).
    { apply Qlt_shift_div_r; [reflexivity|]. rewrite Qmult_0_l.
      replace 0%Q with (inject_Z 0) by reflexivity. rewrite <- Zlt_Qlt. exact Neg. }
    destruct (isNightDrive payload).
    + rewrite Qplus_0_r.
      apply Qplus_lt_r. rewrite <- (Qplus_0_r (completedNightHours (user state))) at 2.
      apply Qplus_lt_r. exact P.
    + rewrite Qplus_0_r.
      apply Qplus_lt_l. rewrite <- (Qplus_0_r (completedDayHours (user state))) at 2.
      apply Qplus_lt_r. exact P.
Qed.

Lemma add_drive_never_rejected_witness :
  (total_hours (drivingReducer 0 (ymd 2024 1 3) loadedState (ADD_DRIVE negative_drive))
   < total_hours loadedState)%Q.
Proof.
  destruct (add_drive_never_rejected 0 (ymd 2024 1 3) loadedState negative_drive)
    as (_ & _ & _ & _ & Down).
  apply Down. reflexivity.
Defined.

(** [ADD_DRIVE] keeps the longest streak as a high-water mark. *)
Lemma add_drive_keeps_longest : forall zone today state payload,
  longest (streaks state) <=
  longest (streaks (drivingReducer zone today state (ADD_DRIVE payload))).
Proof.
  intros; cbn. apply Z.le_max_l.
Qed.

(** C1.  The code at the failing input: a first drive raises [longest] to 1,
    and deleting it brings [longest] back to 0, below its previous value;
    editing a drive away from a two-day run lowers it likewise. *)
Theorem delete_drive_lowers_longest :
  let today := ymd 2024 1 3 in
  let s1 := drivingReducer 0 today loadedState (ADD_DRIVE (drive_on "a" today)) in
  let s2 := drivingReducer 0 today s1 (DELETE_DRIVE "a") in
  let t1 := drivingReducer 0 today s1 (ADD_DRIVE (drive_on "b" (today - 1))) in
  let t2 := drivingReducer 0 today t1 (UPDATE_DRIVE (drive_on "b" (today - 9))) in
  longest (streaks s1) = 1 /\ longest (streaks s2) = 0 /\
  longest (streaks t1) = 2 /\ longest (streaks t2) = 1.
Proof. repeat split; reflexivity. Qed.

Lemma filter_all_kept {A : Type} (keep : A -> bool) (l : list A) :
  (forall x, In x l -> keep x = true) -> filter keep l = l.
Proof.
  induction l as [|x l IH]; intros H; simpl; [reflexivity|].
  rewrite (H x (or_introl eq_refl)), IH; [reflexivity|].
  intros y Hy; apply H; right; exact Hy.
Qed.


(** Ids are unique in the data model (they are creation-time stamps).  If
    a stored drive did carry the id of the added one, the deletion would
    remove the older drive too. *)
Lemma delete_by_shared_id_loses_hours :
  let today := ymd 2024 1 3 in
  let s := drivingReducer 0 today loadedState (ADD_DRIVE (drive_on "1" (today - 1))) in
  let p := ninety_minutes "1" today in
  let s1 := drivingReducer 0 today s (ADD_DRIVE p) in
  let s2 := drivingReducer 0 today s1 (DELETE_DRIVE (id p)) in
  (completedDayHours (user s) ==
     sum_hours (fun d => negb (isNightDrive d)) (drives s))%Q /\
  duration p = 90 /\ isNightDrive p = false /\
  ~ (completedDayHours (user s2) == completedDayHours (user s))%Q.
Proof.
  cbv zeta. split; [reflexivity|]. split; [reflexivity|]. split; [reflexivity|].
  intro H. vm_compute in H. discriminate H.
Qed.





(* ================================================================== *)
(** ** The persistent store *)

Lemma try_catch_returns {A : Type} (body : Async A) (handler : exn -> Async A) :
  (forall e fs, exists a fs', handler e fs = (Returned a, fs')) ->
  forall fs, exists a fs', try_catch body handler fs = (Returned a, fs').
Proof.
  intros H fs. unfold try_catch.
  destruct (body fs) as [[a|e] fs'].
  - exists a, fs'; reflexivity.
  - apply H.
Qed.

Lemma snoc_twice {A : Type} (l : list A) (a b : A) : (l ++ [a]) ++ [b] = l ++ [a; b].
Proof. rewrite <- app_assoc; reflexivity. Qed.

Lemma saveData_returns : forall data fs,
  exists b fs', saveData data fs = (Returned b, fs').
Proof.
  intros data. unfold saveData. apply try_catch_returns.
  intros e fs; exists false, fs; reflexivity.
Qed.

(** [loadData] hands a value to its caller on every device, whatever fails. *)
Lemma loadData_returns : forall fs,
  exists data fs', loadData fs = (Returned data, fs').
Proof.
  unfold loadData. apply try_catch_returns.
  intros e fs. unfold bind at 1.
  destruct (try_catch_returns
              (backupFileInfo <- getInfoAsync BACKUP_DATA_FILE ;;
               if backupFileInfo then
                 backupString <- readAsStringAsync BACKUP_DATA_FILE ;;
                 backupData <- JSON_parse backupString ;;
                 saveData backupData ;;
                 ret (Some backupData)
               else ret None)
              (fun backupError => ret None)
              (fun e' fs' => ex_intro _ None (ex_intro _ fs' eq_refl)) fs)
    as (restored & fs1 & E).
  rewrite E. destruct restored as [backupData|].
  - exists backupData, fs1; reflexivity.
  - unfold bind. destruct (saveData_returns DEFAULT_DATA fs1) as (b & fs2 & E2).
    rewrite E2. exists DEFAULT_DATA, fs2; reflexivity.
Qed.

(** With a primary that does not parse and a backup that does, on a device
    that rejects nothing, [loadData] returns the backup's value and writes it
    to the primary; the broken primary has been copied over the backup. *)
Lemma loadData_promotes_backup : forall raw backupData journal0,
  let fs := mkFS true (Some (Malformed raw)) (Some (Stringified backupData)) [] journal0 in
  fst (loadData fs) = Returned backupData /\
  mainFile (snd (loadData fs)) = Some (JSON_stringify backupData) /\
  backupFile (snd (loadData fs)) = Some (Malformed raw).
Proof.
  intros; repeat split; reflexivity.
Qed.

(** With neither file parsing (or no backup at all), the default document is
    written and returned. *)
Lemma loadData_falls_back_to_default : forall raw backup journal0,
  (backup = None \/ exists raw', backup = Some (Malformed raw')) ->
  let fs := mkFS true (Some (Malformed raw)) backup [] journal0 in
  fst (loadData fs) = Returned DEFAULT_DATA /\
  mainFile (snd (loadData fs)) = Some (JSON_stringify DEFAULT_DATA).
Proof.
  intros raw backup journal0 [->|[raw' ->]]; split; reflexivity.
Qed.

(** C3.  The code at the failing input: the primary does not parse and the
    backup parses to an object with none of the required fields.  The backup
    is not validated; it is returned, and written to the primary, in place of
    the default document. *)
Theorem loadData_accepts_invalid_backup :
  valid_document (JObj []) = false /\
  valid_document DEFAULT_DATA = true /\
  fst (loadData corrupt_primary_hollow_backup) = Returned (JObj []) /\
  mainFile (snd (loadData corrupt_primary_hollow_backup)) = Some (Stringified (JObj [])) /\
  fst (loadData corrupt_primary_hollow_backup) <> Returned DEFAULT_DATA.
Proof.
  repeat split; try reflexivity.
  intro H. vm_compute in H. discriminate H.
Qed.

(** The same object in the primary file is refused by the validation there. *)
Example loadData_validates_primary :
  fst (loadData (mkFS true (Some (Stringified (JObj []))) None [] [])) = Returned DEFAULT_DATA.
Proof. reflexivity. Qed.

(** C5.  [saveData] never throws: it returns a boolean on every device.
    On every path, rejected calls or not, the primary is written only by the
    last call and, when a primary existed, only directly after the call that
    copied it to the backup.  When no provider call is rejected it returns
    [true], the primary holds the new serialised document and the backup
    holds the previous primary.  When some call is rejected it returns
    [false] and the primary is what it was, the backup being what it was or
    the copy of that primary. *)
Theorem saveData_backup_before_write : forall data fs,
  let result := fst (saveData data fs) in
  let fs' := snd (saveData data fs) in
  (exists b, result = Returned b) /\
  (exists calls, journal fs' = journal fs ++ calls /\
                 backup_first (had_primary fs) false calls = true) /\
  (rejected_within (save_calls fs) fs = true ->
     result = Returned false /\
     mainFile fs' = mainFile fs /\
     (backupFile fs' = backupFile fs \/ backupFile fs' = mainFile fs)) /\
  (rejected_within (save_calls fs) fs = false ->
     result = Returned true /\
     mainFile fs' = Some (JSON_stringify data) /\
     match mainFile fs with
     | Some previous =>
         backupFile fs' = Some previous /\
         exists before,
           journal fs' =
           before ++ [Copy MAIN_DATA_FILE BACKUP_DATA_FILE;
                      WriteAsString MAIN_DATA_FILE (JSON_stringify data)]
     | None => backupFile fs' = backupFile fs
     end).
Proof.
  intros data [dir main backup faults0 journal0].
  destruct dir, main as [previous|];
    destruct faults0 as [|[] [|[] [|[] [|[] [|[] ?]]]]];
    cbn; (split; [eexists; reflexivity|]);
    (split;
     [first [ exists []; split; [symmetry; apply app_nil_r|reflexivity]
            | rewrite <- ?app_assoc; eexists; split; reflexivity ]|]);
    (split; [intros H; try discriminate H; repeat split; auto|]);
    intros H; try discriminate H;
    repeat split;
    try (eexists; apply snoc_twice).
Qed.

Lemma saveData_backup_before_write_witness :
  fst (saveData (JObj []) device_after_first_run) = Returned true /\
  backupFile (snd (saveData (JObj []) device_after_first_run)) =
    Some (Stringified DEFAULT_DATA) /\
  fst (saveData (JObj [])
         (mkFS true (Some (Stringified DEFAULT_DATA)) None [false; false; true] [])) =
    Returned false /\
  mainFile (snd (saveData (JObj [])
         (mkFS true (Some (Stringified DEFAULT_DATA)) None [false; false; true] []))) =
    Some (Stringified DEFAULT_DATA).
Proof.
  pose proof (saveData_backup_before_write (JObj []) device_after_first_run) as Hok.
  pose proof (saveData_backup_before_write (JObj [])
                (mkFS true (Some (Stringified DEFAULT_DATA)) None [false; false; true] []))
    as Hko.
  cbv zeta in Hok, Hko.
  destruct Hok as (_ & _ & _ & Hok). destruct Hko as (_ & _ & Hko & _).
  destruct (Hok eq_refl) as (R & _ & B & _).
  destruct (Hko eq_refl) as (F & M & _).
  split; [exact R|]. split; [exact B|]. split; [exact F|exact M].
Defined.

(* ================================================================== *)
(** ** Time utilities *)

Ltac ascii_cases c :=
  destruct c as [[] [] [] [] [] [] [] []]; intros H; try discriminate H;
  simpl; tauto.

Lemma digit_cases (c : ascii) :
  is_digit c = true ->
  In c ["0"; "1"; "2"; "3"; "4"; "5"; "6"; "7"; "8"; "9"]%char.
Proof. ascii_cases c. Qed.

Lemma upto5_cases (c : ascii) :
  between "0" "5" c = true -> In c ["0"; "1"; "2"; "3"; "4"; "5"]%char.
Proof. ascii_cases c. Qed.

Lemma upto3_cases (c : ascii) :
  between "0" "3" c = true -> In c ["0"; "1"; "2"; "3"]%char.
Proof. ascii_cases c. Qed.

Lemma upto1_cases (c : ascii) :
  between "0" "1" c = true -> In c ["0"; "1"]%char.
Proof. ascii_cases c. Qed.

Lemma split_without_separator (sep : ascii) (s : list ascii) :
  ~ In sep s -> split sep s = [s].
Proof.
  induction s as [|c s IH]; intros N; [reflexivity|].
  cbn [split]. destruct (Ascii.eqb_spec c sep) as [->|_].
  - exfalso. apply N. left. reflexivity.
  - rewrite IH; [reflexivity|]. intros H. apply N. right. exact H.
Qed.

Lemma split_at_separator (sep : ascii) (first rest : list ascii) :
  ~ In sep first ->
  split sep (first ++ sep :: rest) = first :: split sep rest.
Proof.
  induction first as [|c first IH]; intros N.
  - cbn [app split]. rewrite Ascii.eqb_refl. reflexivity.
  - cbn [app split]. destruct (Ascii.eqb_spec c sep) as [->|_].
    + exfalso. apply N. left. reflexivity.
    + rewrite IH; [reflexivity|]. intros H. apply N. right. exact H.
Qed.

Lemma digit_facts (c : ascii) :
  is_digit c = true ->
  is_space c = false /\ (128 <=? code c) = false /\ c <> ":"%char /\
  48 <= code c <= 57.
Proof.
  intros D. apply digit_cases in D. simpl in D.
  repeat destruct D as [<-|D]; try destruct D;
    (split; [reflexivity|split; [reflexivity|split; [discriminate|split; discriminate]]]).
Qed.

Lemma digits_have_no_colon (s : list ascii) :
  forallb is_digit s = true -> ~ In ":"%char s.
Proof.
  intros D H. rewrite forallb_forall in D. specialize (D _ H). discriminate D.
Qed.

Lemma drop_spaces_digits (s : list ascii) :
  forallb is_digit s = true -> drop_spaces s = s.
Proof.
  destruct s as [|c s]; [reflexivity|]. intros D. cbn [forallb] in D.
  apply andb_true_iff in D. destruct D as [D _].
  cbn [drop_spaces]. destruct (digit_facts c D) as (-> & _). reflexivity.
Qed.

Lemma forallb_rev {A : Type} (f : A -> bool) (l : list A) :
  forallb f (rev l) = forallb f l.
Proof.
  destruct (forallb f l) eqn:E.
  - apply forallb_forall. intros x Hx. apply in_rev in Hx.
    rewrite forallb_forall in E. apply E, Hx.
  - destruct (forallb f (rev l)) eqn:E'; [|reflexivity].
    rewrite <- E. symmetry. apply forallb_forall. intros x Hx.
    rewrite forallb_forall in E'. apply E', in_rev. rewrite rev_involutive. exact Hx.
Qed.

(** [Number] reads a run of at most 14 digits, or the empty text, as its
    decimal value. *)
Lemma Number_of_digits (s : list ascii) :
  forallb is_digit s = true -> (List.length s <= 14)%nat ->
  Number s = Some (Fin (digits_value s)).
Proof.
  intros D L. unfold Number.
  assert (A : existsb (fun c => 128 <=? code c) s = false).
  { apply not_true_is_false. intros H. apply existsb_exists in H.
    destruct H as (c & Hc & H). rewrite forallb_forall in D.
    destruct (digit_facts c (D c Hc)) as (_ & F & _). congruence. }
  rewrite A. unfold trim.
  rewrite (drop_spaces_digits s D).
  rewrite (drop_spaces_digits (rev s)) by (rewrite forallb_rev; exact D).
  rewrite rev_involutive.
  destruct s as [|c s]; [reflexivity|].
  rewrite D. apply Nat.leb_le in L. rewrite L. reflexivity.
Qed.

(** With digit runs before and after the first colon the result is
    hours * 60 + minutes, whatever the numbers are and whatever follows a
    second colon. *)
Lemma timeToMinutes_of_digit_runs (time : string) (hs ms tail : list ascii) :
  list_ascii_of_string time = hs ++ ":"%char :: ms ++ tail ->
  forallb is_digit hs = true -> forallb is_digit ms = true ->
  (List.length hs <= 14)%nat -> (List.length ms <= 14)%nat ->
  tail = [] \/ (exists more, tail = ":"%char :: more) ->
  timeToMinutes time = Some (Fin (digits_value hs * 60 + digits_value ms)).
Proof.
  intros E Dh Dm Lh Lm T. unfold timeToMinutes. rewrite E.
  rewrite (split_at_separator ":" hs _ (digits_have_no_colon hs Dh)).
  assert (P : exists others, split ":" (ms ++ tail) = ms :: others).
  { destruct T as [->|(more & ->)].
    - rewrite app_nil_r, (split_without_separator ":" ms (digits_have_no_colon ms Dm)).
      exists []. reflexivity.
    - rewrite (split_at_separator ":" ms _ (digits_have_no_colon ms Dm)).
      eexists. reflexivity. }
  destruct P as (others & ->).
  cbn [map element nth_error].
  rewrite (Number_of_digits hs Dh Lh), (Number_of_digits ms Dm Lm).
  reflexivity.
Qed.

(** Without a colon there are no minutes and the result is [NaN]. *)
Lemma timeToMinutes_without_colon (time : string) :
  ~ In ":"%char (list_ascii_of_string time) -> timeToMinutes time = Some NaN.
Proof.
  intros N. unfold timeToMinutes.
  rewrite (split_without_separator ":" _ N).
  cbn [map element nth_error].
  destruct (Number (list_ascii_of_string time)) as [[|z]|]; reflexivity.
Qed.

Lemma between_bounds (lo hi c : ascii) :
  between lo hi c = true -> code lo <= code c <= code hi.
Proof.
  unfold between. intros H. apply andb_true_iff in H.
  rewrite !Z.leb_le in H. exact H.
Qed.

(** The shape of the texts that [isValidTime] accepts: one or two digits
    that make an hour from 0 to 23, a colon, two digits that make a minute
    from 0 to 59. *)
Lemma valid_time_shape (time : string) :
  isValidTime time = true ->
  exists hs ms,
    list_ascii_of_string time = hs ++ ":"%char :: ms /\
    forallb is_digit hs = true /\ forallb is_digit ms = true /\
    (1 <= List.length hs <= 2)%nat /\ List.length ms = 2%nat /\
    0 <= digits_value hs < 24 /\ 0 <= digits_value ms < 60.
Proof.
  unfold isValidTime.
  destruct (list_ascii_of_string time) as [|c1 [|c2 [|c3 [|c4 [|c5 [|c6 l]]]]]];
    try discriminate.
  - intros H.
    apply andb_true_iff in H; destruct H as [H H4].
    apply andb_true_iff in H; destruct H as [H H3].
    apply andb_true_iff in H; destruct H as [H1 H2].
    apply Ascii.eqb_eq in H2; subst c2.
    exists [c1], [c3; c4].
    assert (D3 : is_digit c3 = true).
    { unfold is_digit, between in *. apply andb_true_iff in H3.
      rewrite !Z.leb_le in H3. apply andb_true_iff. rewrite !Z.leb_le.
      change (code "5") with 53 in H3. change (code "0") with 48 in *.
      change (code "9") with 57. lia. }
    apply between_bounds in H3.
    pose proof (between_bounds _ _ _ H1) as B1.
    pose proof (between_bounds _ _ _ H4) as B4.
    change (code "0") with 48 in *. change (code "9") with 57 in *.
    change (code "5") with 53 in *.
    cbn [forallb app List.length]. rewrite H1, D3, H4.
    unfold digits_value. cbn [fold_left].
    repeat split; try reflexivity; lia.
  - intros H.
    apply andb_true_iff in H; destruct H as [H H5].
    apply andb_true_iff in H; destruct H as [H H4].
    apply andb_true_iff in H; destruct H as [H12 H3].
    apply Ascii.eqb_eq in H3; subst c3.
    exists [c1; c2], [c4; c5].
    assert (D4 : is_digit c4 = true).
    { unfold is_digit, between in *. apply andb_true_iff in H4.
      rewrite !Z.leb_le in H4. apply andb_true_iff. rewrite !Z.leb_le.
      change (code "5") with 53 in H4. change (code "0") with 48 in *.
      change (code "9") with 57. lia. }
    apply between_bounds in H4.
    pose proof (between_bounds _ _ _ H5) as B5.
    change (code "0") with 48 in *. change (code "9") with 57 in *.
    change (code "5") with 53 in *.
    assert (D12 : is_digit c1 = true /\ is_digit c2 = true /\
                  0 <= 10 * (code c1 - 48) + (code c2 - 48) < 24).
    { apply orb_true_iff in H12. destruct H12 as [H12|H12];
        apply andb_true_iff in H12; destruct H12 as [Ha Hb].
      - pose proof (between_bounds _ _ _ Ha) as Ba.
        pose proof (between_bounds _ _ _ Hb) as Bb.
        change (code "0") with 48 in *. change (code "9") with 57 in *.
        change (code "1") with 49 in *.
        split; [|split; [exact Hb|lia]].
        unfold is_digit, between. apply andb_true_iff. rewrite !Z.leb_le.
        change (code "0") with 48. change (code "9") with 57. lia.
      - apply Ascii.eqb_eq in Ha. subst c1.
        pose proof (between_bounds _ _ _ Hb) as Bb.
        change (code "0") with 48 in *. change (code "3") with 51 in *.
        split; [reflexivity|]. change (code "2") with 50. split; [|lia].
        unfold is_digit, between. apply andb_true_iff. rewrite !Z.leb_le.
        change (code "0") with 48. change (code "9") with 57. lia. }
    destruct D12 as (D1 & D2 & B12).
    cbn [forallb app List.length]. rewrite D1, D2, D4, H5.
    unfold digits_value. cbn [fold_left].
    repeat split; try reflexivity; lia.
Qed.

(** On a text that [isValidTime] accepts, [timeToMinutes] is the minute of
    the day. *)
Lemma timeToMinutes_of_valid : forall time,
  isValidTime time = true ->
  exists h m, 0 <= h < 24 /\ 0 <= m < 60 /\
              timeToMinutes time = Some (Fin (h * 60 + m)).
Proof.
  intros time V.
  destruct (valid_time_shape time V) as (hs & ms & E & Dh & Dm & Lh & Lm & Bh & Bm).
  exists (digits_value hs), (digits_value ms).
  split; [exact Bh|]. split; [exact Bm|].
  apply (timeToMinutes_of_digit_runs time hs ms []);
    [rewrite app_nil_r; exact E|exact Dh|exact Dm|lia|lia|left; reflexivity].
Qed.

Lemma every_clock_text_checked_holds : every_clock_text_checked = true.
Proof. vm_compute. reflexivity. Qed.

Lemma clock_text_read_back : forall h m,
  0 <= h < 24 -> 0 <= m < 60 ->
  isValidTime (clock_text h m) = true /\
  timeToMinutes (clock_text h m) = Some (Fin (h * 60 + m)).
Proof.
  intros h m Hh Hm.
  pose proof every_clock_text_checked_holds as All.
  unfold every_clock_text_checked in All.
  rewrite forallb_forall in All.
  specialize (All (Z.to_nat h)).
  rewrite forallb_forall in All.
  assert (In (Z.to_nat h) (seq 0 24)) as Ih by (apply in_seq; lia).
  assert (In (Z.to_nat m) (seq 0 60)) as Im by (apply in_seq; lia).
  specialize (All Ih (Z.to_nat m) Im).
  rewrite !Z2Nat.id in All by lia.
  unfold clock_text_checked in All.
  apply andb_true_iff in All; destruct All as [V T].
  split; [exact V|].
  destruct (timeToMinutes (clock_text h m)) as [[|z]|]; try discriminate T.
  apply Z.eqb_eq in T. subst z. reflexivity.
Qed.

(** C6, as claimed: on a malformed text [timeToMinutes] would fail and never
    return a coerced number.  The text ":" is refused by [isValidTime], and
    [timeToMinutes] returns 0 for it; "1:2:3" and "7:5" are refused too and
    give 62 and 425. *)
Lemma timeToMinutes_coerces_garbage :
  isValidTime ":" = false /\ timeToMinutes ":" = Some (Fin 0) /\
  isValidTime "1:2:3" = false /\ timeToMinutes "1:2:3" = Some (Fin 62) /\
  isValidTime "7:5" = false /\ timeToMinutes "7:5" = Some (Fin 425).
Proof. repeat split; reflexivity. Qed.

(** C6, amended.  [timeToMinutes] checks no format.  On a text that
    [isValidTime] accepts, which is an hour from 0 to 23 in one or two
    digits, a colon and a minute from 0 to 59 in two digits, it returns
    exactly hours * 60 + minutes; the two-digit text of every time of day is
    such a text.  On other texts it returns a value all the same: whenever
    the parts before and after the first colon are runs of at most 14 digits
    (an empty run counting as 0), it returns hours * 60 + minutes unchecked,
    whatever the numbers are and whatever follows a second colon; on every
    text without a colon it returns [NaN]. *)
Theorem timeToMinutes_contract :
  (forall time, isValidTime time = true ->
     exists hs ms,
       list_ascii_of_string time = hs ++ ":"%char :: ms /\
       forallb is_digit hs = true /\ forallb is_digit ms = true /\
       (1 <= List.length hs <= 2)%nat /\ List.length ms = 2%nat /\
       0 <= digits_value hs < 24 /\ 0 <= digits_value ms < 60 /\
       timeToMinutes time = Some (Fin (digits_value hs * 60 + digits_value ms))) /\
  (forall h m, 0 <= h < 24 -> 0 <= m < 60 ->
     isValidTime (clock_text h m) = true /\
     timeToMinutes (clock_text h m) = Some (Fin (h * 60 + m))) /\
  (forall time hs ms tail,
     list_ascii_of_string time = hs ++ ":"%char :: ms ++ tail ->
     forallb is_digit hs = true -> forallb is_digit ms = true ->
     (List.length hs <= 14)%nat -> (List.length ms <= 14)%nat ->
     tail = [] \/ (exists more, tail = ":"%char :: more) ->
     timeToMinutes time = Some (Fin (digits_value hs * 60 + digits_value ms))) /\
  (forall time, ~ In ":"%char (list_ascii_of_string time) ->
     timeToMinutes time = Some NaN).
Proof.
  split.
  { intros time V.
    destruct (valid_time_shape time V) as (hs & ms & E & Dh & Dm & Lh & Lm & Bh & Bm).
    exists hs, ms. repeat split; try assumption; try lia.
    apply (timeToMinutes_of_digit_runs time hs ms []);
      [rewrite app_nil_r; exact E|exact Dh|exact Dm|lia|lia|left; reflexivity]. }
  split; [exact clock_text_read_back|].
  split; [exact timeToMinutes_of_digit_runs|].
  exact timeToMinutes_without_colon.
Qed.

Lemma timeToMinutes_contract_witness :
  (exists hs ms,
     list_ascii_of_string "18:30" = hs ++ ":"%char :: ms /\
     0 <= digits_value hs < 24 /\ 0 <= digits_value ms < 60 /\
     timeToMinutes "18:30" = Some (Fin (digits_value hs * 60 + digits_value ms))) /\
  timeToMinutes (clock_text 6 5) = Some (Fin (6 * 60 + 5)) /\
  timeToMinutes "25:70" = Some (Fin 1570) /\
  timeToMinutes "1:2:3" = Some (Fin 62) /\
  timeToMinutes ":" = Some (Fin 0) /\
  timeToMinutes "half past six" = Some NaN.
Proof.
  destruct timeToMinutes_contract as (V & C & U & N).
  split.
  { destruct (V "18:30"%string eq_refl) as (hs & ms & E & _ & _ & _ & _ & Bh & Bm & T).
    exists hs, ms. repeat split; try assumption; lia. }
  split; [apply (C 6 5); lia|].
  split.
  { apply (U "25:70"%string ["2"; "5"]%char ["7"; "0"]%char []);
      [reflexivity|reflexivity|reflexivity|simpl; lia|simpl; lia|left; reflexivity]. }
  split.
  { apply (U "1:2:3"%string ["1"]%char ["2"]%char [":"; "3"]%char);
      [reflexivity|reflexivity|reflexivity|simpl; lia|simpl; lia|right; eexists; reflexivity]. }
  split.
  { apply (U ":"%string [] [] []);
      [reflexivity|reflexivity|reflexivity|simpl; lia|simpl; lia|left; reflexivity]. }
  apply N. simpl. intuition discriminate.
Defined.

(* ================================================================== *)
(** ** More on the streak engine *)

(** A run of consecutive session days is never longer than the longest
    streak. *)
Lemma run_le_longest (drives : list Drive) (a k : Z) :
  1 <= k ->
  (forall j, 0 <= j < k -> drove_on drives (a + j) = true) ->
  k <= calculateLongestStreak drives.
Proof.
  intros Hk Run.
  destruct (longest_unique_dates drives) as (days & S & Mem & E).
  rewrite E.
  assert (Run' : forall j, 0 <= j < k -> In (a + j) days)
    by (intros j Hj; apply Mem, Run, Hj).
  destruct days as [|first rest].
  - destruct (Run' 0 ltac:(lia)).
  - apply (longest_loop_finds_run rest first 1 1 a k S); [lia|lia|exact Run'].
Qed.

(** The scan only reports runs that are there. *)
Lemma longest_loop_witnessed (P : Z -> Prop) (rest : list Z) : forall prev best cur,
  (forall z, In z (prev :: rest) -> P z) ->
  1 <= cur ->
  (forall j, 0 <= j < cur -> P (prev - j)) ->
  (exists a, forall j, 0 <= j < best -> P (a + j)) ->
  exists a, forall j, 0 <= j < longest_loop prev rest best cur -> P (a + j).
Proof.
  induction rest as [|c rest IH]; intros prev best cur All Hc Cur Best; simpl.
  - exact Best.
  - assert (Pc : P c) by (apply All; right; left; reflexivity).
    assert (All' : forall z, In z (c :: rest) -> P z)
      by (intros z Hz; apply All; right; exact Hz).
    destruct (c - prev =? 1) eqn:D.
    + apply Z.eqb_eq in D.
      assert (Cur' : forall j, 0 <= j < cur + 1 -> P (c - j)).
      { intros j Hj. destruct (Z.eq_dec j 0) as [->|]; [rewrite Z.sub_0_r; exact Pc|].
        replace (c - j) with (prev - (j - 1)) by lia. apply Cur. lia. }
      apply IH; [exact All'|lia|exact Cur'|].
      destruct (Z.max_spec best (cur + 1)) as [[_ ->]|[_ ->]].
      * exists (c - cur). intros j Hj.
        replace (c - cur + j) with (c - (cur - j)) by lia. apply Cur'. lia.
      * exact Best.
    + apply IH; [exact All'|lia| |exact Best].
      intros j Hj. replace j with 0 by lia. rewrite Z.sub_0_r. exact Pc.
Qed.

(** The longest streak is attained: some run of that many consecutive
    session days exists. *)
Lemma longest_attained (drives : list Drive) :
  exists a, forall j, 0 <= j < calculateLongestStreak drives ->
                      drove_on drives (a + j) = true.
Proof.
  destruct (longest_unique_dates drives) as (days & S & Mem & E).
  rewrite E. destruct days as [|first rest].
  - exists 0. intros j Hj. lia.
  - apply (longest_loop_witnessed (fun z => drove_on drives z = true)).
    + intros z Hz. apply Mem, Hz.
    + lia.
    + intros j Hj. replace j with 0 by lia. rewrite Z.sub_0_r.
      apply Mem. left. reflexivity.
    + exists first. intros j Hj. replace j with 0 by lia. rewrite Z.add_0_r.
      apply Mem. left. reflexivity.
Qed.

Lemma longest_nonneg (drives : list Drive) : 0 <= calculateLongestStreak drives.
Proof.
  destruct (longest_unique_dates drives) as (days & S & Mem & E).
  rewrite E. destruct days as [|first rest]; [lia|].
  pose proof (longest_loop_keeps_best rest first 1 1). lia.
Qed.

Lemma longest_zero_iff (drives : list Drive) :
  calculateLongestStreak drives = 0 <-> forall z, drove_on drives z = false.
Proof.
  destruct (longest_unique_dates drives) as (days & S & Mem & E).
  rewrite E. destruct days as [|first rest].
  - split; [|reflexivity]. intros _ z.
    apply not_true_is_false. intros H. apply Mem in H. destruct H.
  - pose proof (longest_loop_keeps_best rest first 1 1). split; [lia|].
    intros N. specialize (N first).
    assert (drove_on drives first = true) by (apply Mem; left; reflexivity).
    congruence.
Qed.

(** X1.  [calculateLongestStreak] is the length of the longest run of
    consecutive days that each have a drive: every such run is at most that
    long, a run of exactly that length exists, and the result is 0 exactly
    when no drive has a date. *)
Theorem longest_streak_is_longest_run : forall drives,
  (forall a k, 1 <= k ->
     (forall j, 0 <= j < k -> drove_on drives (a + j) = true) ->
     k <= calculateLongestStreak drives) /\
  (exists a, forall j, 0 <= j < calculateLongestStreak drives ->
                       drove_on drives (a + j) = true) /\
  (calculateLongestStreak drives = 0 <-> forall z, drove_on drives z = false).
Proof.
  intros drives. split; [|split].
  - intros a k. apply run_le_longest.
  - apply longest_attained.
  - apply longest_zero_iff.
Qed.

Lemma longest_streak_is_longest_run_witness :
  2 <= calculateLongestStreak
         [drive_on "a" 10; drive_on "b" 14; drive_on "c" 11].
Proof.
  destruct (longest_streak_is_longest_run
              [drive_on "a" 10; drive_on "b" 14; drive_on "c" 11]) as (Upper & _).
  apply (Upper 10 2); [lia|].
  intros j Hj. assert (j = 0 \/ j = 1) as [->| ->] by lia; reflexivity.
Defined.

(** A list with at least the session days of another has at least its
    longest streak. *)
Lemma longest_monotone (drives drives' : list Drive) :
  (forall z, drove_on drives z = true -> drove_on drives' z = true) ->
  calculateLongestStreak drives <= calculateLongestStreak drives'.
Proof.
  intros Sub.
  destruct (Z.eq_dec (calculateLongestStreak drives) 0) as [E|N].
  - rewrite E. apply longest_nonneg.
  - pose proof (longest_nonneg drives).
    destruct (longest_attained drives) as (a & Run).
    apply (run_le_longest drives' a); [lia|].
    intros j Hj. apply Sub, Run, Hj.
Qed.

(** The current streak is decided by the days up to today on which the dates
    are read. *)
Lemma current_determined (zone today : Z) (drives drives' : list Drive) :
  (forall z, z <= today -> read_on zone drives z = read_on zone drives' z) ->
  calculateCurrentStreak zone today drives = calculateCurrentStreak zone today drives'.
Proof.
  intros Same.
  pose proof (current_streak_characterised zone today drives) as (A1 & A2 & A3).
  pose proof (current_streak_characterised zone today drives') as (B1 & B2 & B3).
  cbv zeta in *.
  destruct (read_on zone drives today) eqn:T.
  - destruct (A1 eq_refl) as (K1 & Run1 & Stop1).
    assert (T' : read_on zone drives' today = true) by (rewrite <- Same; [exact T|lia]).
    destruct (B1 T') as (K2 & Run2 & Stop2).
    set (k1 := calculateCurrentStreak zone today drives) in *.
    set (k2 := calculateCurrentStreak zone today drives') in *.
    destruct (Z.lt_trichotomy k1 k2) as [L|[E|L]]; [|exact E|].
    + specialize (Run2 k1 ltac:(lia)). rewrite <- Same in Run2 by lia. congruence.
    + specialize (Run1 k2 ltac:(lia)). rewrite Same in Run1 by lia. congruence.
  - assert (T' : read_on zone drives' today = false) by (rewrite <- Same; [exact T|lia]).
    destruct (read_on zone drives (today - 1)) eqn:Y.
    + assert (Y' : read_on zone drives' (today - 1) = true) by (rewrite <- Same; [exact Y|lia]).
      rewrite (A2 eq_refl eq_refl), (B2 T' Y'). reflexivity.
    + assert (Y' : read_on zone drives' (today - 1) = false) by (rewrite <- Same; [exact Y|lia]).
      rewrite (A3 eq_refl eq_refl), (B3 T' Y'). reflexivity.
Qed.

(** X2.  Both streak functions depend only on the set of days that have a
    drive: two lists with the same session days (in any order, with any
    repetition, with or without undated drives) give the same current and
    the same longest streak. *)
Theorem streaks_depend_on_days_only : forall zone today drives drives',
  (forall z, drove_on drives z = drove_on drives' z) ->
  calculateCurrentStreak zone today drives = calculateCurrentStreak zone today drives' /\
  calculateLongestStreak drives = calculateLongestStreak drives'.
Proof.
  intros zone today drives drives' Same. split.
  - apply current_determined. intros z _. rewrite !read_on_drove_on. apply Same.
  - apply Z.le_antisymm; apply longest_monotone; intros z H;
      [rewrite <- Same|rewrite Same]; exact H.
Qed.

Lemma drove_on_app (l l' : list Drive) (z : Z) :
  drove_on (l ++ l') z = drove_on l z || drove_on l' z.
Proof. unfold drove_on. apply existsb_app. Qed.

Lemma streaks_depend_on_days_only_witness :
  let l := [drive_on "a" 10; drive_on "b" 11] in
  calculateCurrentStreak (-300) 11 l = calculateCurrentStreak (-300) 11 (rev l ++ l) /\
  calculateLongestStreak l = calculateLongestStreak (rev l ++ l).
Proof.
  apply (streaks_depend_on_days_only (-300) 11
           [drive_on "a" 10; drive_on "b" 11]
           (rev [drive_on "a" 10; drive_on "b" 11] ++ [drive_on "a" 10; drive_on "b" 11])).
  intros z. unfold drove_on, drive_on. cbn -[Z.eqb].
  destruct (10 =? z), (11 =? z); reflexivity.
Defined.

(** X3.  Logging a further drive never lowers [calculateLongestStreak], and
    more generally a list that covers the session days of another has at
    least its longest streak. *)
Theorem longest_streak_grows_with_days : forall drives drives' payload,
  calculateLongestStreak drives <= calculateLongestStreak (drives ++ [payload]) /\
  ((forall z, drove_on drives z = true -> drove_on drives' z = true) ->
   calculateLongestStreak drives <= calculateLongestStreak drives').
Proof.
  intros drives drives' payload. split.
  - apply longest_monotone. intros z H. rewrite drove_on_app, H. reflexivity.
  - apply longest_monotone.
Qed.

Lemma longest_streak_grows_with_days_witness :
  calculateLongestStreak [drive_on "a" 10] <=
  calculateLongestStreak [drive_on "b" 11; drive_on "a" 10].
Proof.
  destruct (longest_streak_grows_with_days
              [drive_on "a" 10] [drive_on "b" 11; drive_on "a" 10] (drive_on "c" 0))
    as (_ & Sub).
  apply Sub. intros z. unfold drove_on, drive_on. cbn -[Z.eqb].
  destruct (10 =? z), (11 =? z); intros H; try reflexivity; discriminate H.
Defined.

Lemma current_nonneg (zone today : Z) (drives : list Drive) :
  0 <= calculateCurrentStreak zone today drives.
Proof.
  pose proof (current_streak_characterised zone today drives) as (A1 & A2 & A3).
  cbv zeta in *.
  destruct (read_on zone drives today).
  - destruct (A1 eq_refl). lia.
  - destruct (read_on zone drives (today - 1)).
    + rewrite A2; [lia|reflexivity|reflexivity].
    + rewrite A3; [lia|reflexivity|reflexivity].
Qed.


Lemma local_day_monotone (zone a b : Z) : a <= b -> local_day zone a <= local_day zone b.
Proof. rewrite !local_day_shift. lia. Qed.

Lemma read_on_In (zone : Z) (drives : list Drive) (day : Z) :
  read_on zone drives day = true <->
  exists d z, In d drives /\ date d = Some z /\ local_day zone z = day.
Proof.
  unfold read_on. rewrite existsb_exists. split.
  - intros (d & Hd & E). destruct (date d) as [z|] eqn:Dz; [|discriminate E].
    exists d, z. apply Z.eqb_eq in E. tauto.
  - intros (d & z & Hd & Dz & E). exists d. split; [exact Hd|].
    rewrite Dz. apply Z.eqb_eq, E.
Qed.

(** X5.  A freeze day is suggested only when the streak is already lost:
    never when no drive was ever logged, and, when [lastDriveDate] is the
    latest session date, only if the local day on which that date is read
    lies at least 2 days before today, a freeze day is still available and
    the current streak of today is 0.  The dates are read in the zone of the
    clock, whose offset may have changed since the last drive by any amount
    short of a day. *)
Theorem freeze_suggested_only_after_streak_lost :
  forall zone change today drives last used,
  shouldSuggestFreezeDay zone change today None used = false /\
  (-1440 < change ->
   shouldSuggestFreezeDay zone change today (Some last) used = true ->
   (forall z, drove_on drives z = true -> z <= last) ->
   calculateCurrentStreak zone today drives = 0 /\
   canUseFreezeDay used defaultMaxFreezeDaysPerMonth = true /\
   2 <= today - local_day zone last).
Proof.
  intros zone change today drives last used. split; [reflexivity|].
  unfold shouldSuggestFreezeDay, getDaysSinceLastDrive, local_midnight.
  cbn [time_of]. cbv zeta.
  intros Ch H Latest. apply andb_true_iff in H. destruct H as [Gap Can].
  rewrite Z.geb_le in Gap.
  set (diff := (today - local_day zone last) * 1440 - change) in *.
  pose proof (Z.div_mod diff 1440 ltac:(lia)) as DM.
  pose proof (Z.mod_pos_bound diff 1440 ltac:(lia)) as MB.
  assert (Far : 2 <= today - local_day zone last) by (unfold diff in *; lia).
  split; [|split; [exact Can|exact Far]].
  pose proof (current_streak_characterised zone today drives) as (_ & _ & A3).
  apply A3; apply not_true_is_false; intros H; apply read_on_In in H;
    destruct H as (d & z & Hd & Dz & E);
    assert (Hz : drove_on drives z = true) by (apply drove_on_In; exists d; tauto);
    apply Latest in Hz; pose proof (local_day_monotone zone _ _ Hz); lia.
Qed.

Lemma freeze_suggested_only_after_streak_lost_witness :
  calculateCurrentStreak (-300) 21 [drive_on "a" 18; drive_on "b" 19] = 0 /\
  2 <= 21 - local_day (-300) 19.
Proof.
  destruct (freeze_suggested_only_after_streak_lost
              (-300) 60 21 [drive_on "a" 18; drive_on "b" 19] 19 3) as (_ & H).
  destruct H as (Z0 & _ & Far).
  - lia.
  - reflexivity.
  - intros z. unfold drove_on, drive_on. cbn -[Z.eqb].
    destruct (18 =? z) eqn:A; [apply Z.eqb_eq in A; lia|].
    destruct (19 =? z) eqn:B; [apply Z.eqb_eq in B; lia|]. discriminate.
  - split; [exact Z0|exact Far].
Defined.

(* ================================================================== *)
(** ** More on the reducer *)

Lemma sum_hours_snoc (keep : Drive -> bool) (l : list Drive) (p : Drive) :
  (sum_hours keep (l ++ [p]) ==
   sum_hours keep l + (if keep p then hours_of p else 0))%Q.
Proof.
  unfold sum_hours. rewrite filter_app. simpl.
  destruct (keep p).
  - rewrite fold_left_app. simpl. reflexivity.
  - rewrite app_nil_r. ring.
Qed.

(** X6.  Every action other than [LOAD_DATA] and [SET_USER_INFO] keeps the
    hour totals equal to the sums of [duration / 60] over the day drives and
    over the night drives; [UPDATE_DRIVE], [DELETE_DRIVE] and [RESET_DATA]
    bring the totals to these sums from any state. *)
Theorem hour_totals_stay_consistent : forall zone today state a,
  (overwrites_hours a = false -> hours_consistent state ->
   hours_consistent (drivingReducer zone today state a)) /\
  (forall payload, hours_consistent (drivingReducer zone today state (UPDATE_DRIVE payload))) /\
  (forall i, hours_consistent (drivingReducer zone today state (DELETE_DRIVE i))) /\
  hours_consistent (drivingReducer zone today state RESET_DATA).
Proof.
  intros zone today state a. split; [|repeat split; reflexivity].
  intros W [Day Night].
  destruct a; try discriminate W; try (split; [exact Day|exact Night]);
    try (split; reflexivity).
  unfold hours_consistent, drivingReducer.
  cbn [user drives completedDayHours completedNightHours].
  rewrite !sum_hours_snoc, <- Day, <- Night.
  destruct (isNightDrive payload); split; reflexivity.
Qed.

Lemma hour_totals_stay_consistent_witness :
  hours_consistent
    (drivingReducer 0 5 loadedState (ADD_DRIVE (ninety_minutes "7" 5))).
Proof.
  destruct (hour_totals_stay_consistent 0 5 loadedState
              (ADD_DRIVE (ninety_minutes "7" 5))) as (Keep & _).
  apply Keep; [reflexivity|]. split; reflexivity.
Defined.

Lemma filter_filter_same {A : Type} (keep : A -> bool) (l : list A) :
  filter keep (filter keep l) = filter keep l.
Proof.
  apply filter_all_kept. intros x Hx. apply filter_In in Hx. tauto.
Qed.

Lemma filter_kept_in_order {A : Type} (keep : A -> bool) (l : list A) :
  kept_in_order (filter keep l) l.
Proof.
  induction l as [|x l IH]; simpl; [constructor|].
  destruct (keep x); constructor; exact IH.
Qed.

(** X7.  [DELETE_DRIVE] removes exactly the drives with the given id and
    keeps the others in their order; an id that no drive has leaves the list
    as it is.  Deleting the same id again, on whatever day and in whatever
    zone, changes neither the drives nor the user record with its hour
    totals nor the settings nor [streaks.longest]; [streaks.current] is
    computed anew for that day, so on the same day in the same zone the
    whole state is as before. *)
Theorem delete_drive_removes_by_id : forall zone today state i,
  let state' := drivingReducer zone today state (DELETE_DRIVE i) in
  (forall d, In d (drives state') <-> In d (drives state) /\ id d <> i) /\
  kept_in_order (drives state') (drives state) /\
  (exists removed, Permutation (drives state) (drives state' ++ removed) /\
                   forall d, In d removed -> id d = i) /\
  ((forall d, In d (drives state) -> id d <> i) -> drives state' = drives state) /\
  (forall zone' today',
     let again := drivingReducer zone' today' state' (DELETE_DRIVE i) in
     drives again = drives state' /\
     user again = user state' /\
     settings again = settings state' /\
     longest (streaks again) = longest (streaks state') /\
     current (streaks again) = calculateCurrentStreak zone' today' (drives state')) /\
  drivingReducer zone today state' (DELETE_DRIVE i) = state'.
Proof.
  intros zone today state i. cbn. split; [|split; [|split; [|split; [|split]]]].
  - intros d. rewrite filter_In, negb_true_iff, String.eqb_neq. tauto.
  - apply filter_kept_in_order.
  - exists (filter (fun drive => String.eqb (id drive) i) (drives state)). split.
    + induction (drives state) as [|x l IH]; simpl; [constructor|].
      destruct (String.eqb (id x) i); simpl.
      * apply Permutation_cons_app, IH.
      * apply perm_skip, IH.
    + intros d Hd. apply filter_In in Hd. apply String.eqb_eq. tauto.
  - intros Absent. apply filter_all_kept. intros d Hd.
    apply negb_true_iff, String.eqb_neq, Absent, Hd.
  - intros zone' today'. rewrite !filter_filter_same. repeat split.
  - rewrite !filter_filter_same. reflexivity.
Qed.

Lemma delete_drive_removes_by_id_witness :
  drives (drivingReducer 0 5 (drivingReducer 0 5 loadedState (ADD_DRIVE (drive_on "7" 5)))
            (DELETE_DRIVE "8")) =
  drives (drivingReducer 0 5 loadedState (ADD_DRIVE (drive_on "7" 5))).
Proof.
  destruct (delete_drive_removes_by_id 0 5
              (drivingReducer 0 5 loadedState (ADD_DRIVE (drive_on "7" 5))) "8")
    as (_ & _ & _ & Absent & _).
  apply Absent. simpl. intros d [<-|[]]. discriminate.
Defined.

(** X8.  [UPDATE_DRIVE] replaces every drive that has the payload's id by the
    payload and touches no other drive: the ids, their order and the number
    of drives stay the same; when no drive has the id, the list is unchanged
    (the payload is not added).  The same update applied again, on whatever
    day and in whatever zone, changes neither the drives nor the user record
    with its hour totals nor the settings nor [streaks.longest];
    [streaks.current] is computed anew for that day, so on the same day in
    the same zone the whole state is as before. *)
Theorem update_drive_replaces_in_place : forall zone today state payload,
  let state' := drivingReducer zone today state (UPDATE_DRIVE payload) in
  map id (drives state') = map id (drives state) /\
  List.length (drives state') = List.length (drives state) /\
  (forall d, In d (drives state') -> id d = id payload -> d = payload) /\
  (forall d, In d (drives state) -> id d <> id payload -> In d (drives state')) /\
  ((forall d, In d (drives state) -> id d <> id payload) ->
   drives state' = drives state) /\
  (forall zone' today',
     let again := drivingReducer zone' today' state' (UPDATE_DRIVE payload) in
     drives again = drives state' /\
     user again = user state' /\
     settings again = settings state' /\
     longest (streaks again) = longest (streaks state') /\
     current (streaks again) = calculateCurrentStreak zone' today' (drives state')) /\
  drivingReducer zone today state' (UPDATE_DRIVE payload) = state'.
Proof.
  intros zone today state payload. cbn.
  set (replace := fun drive : Drive =>
                    if String.eqb (id drive) (id payload) then payload else drive).
  assert (Ids : forall d, id (replace d) = id d).
  { intros d. unfold replace. destruct (String.eqb_spec (id d) (id payload)); congruence. }
  assert (Twice : forall d, replace (replace d) = replace d).
  { intros d. unfold replace at 1. rewrite Ids. fold (replace d).
    unfold replace. destruct (String.eqb (id d) (id payload)) eqn:E; [|reflexivity].
    reflexivity. }
  split; [|split; [|split; [|split; [|split; [|split]]]]].
  - rewrite map_map. apply map_ext. exact Ids.
  - apply length_map.
  - intros d Hd E. apply in_map_iff in Hd. destruct Hd as (x & <- & _).
    rewrite Ids in E. unfold replace. apply String.eqb_eq in E. rewrite E. reflexivity.
  - intros d Hd N. apply in_map_iff. exists d. split; [|exact Hd].
    unfold replace. apply String.eqb_neq in N. rewrite N. reflexivity.
  - intros Absent. rewrite <- (map_id (drives state)) at 2.
    apply map_ext_in. intros d Hd. unfold replace.
    specialize (Absent d Hd). apply String.eqb_neq in Absent. rewrite Absent. reflexivity.
  - intros zone' today'. rewrite map_map. rewrite (map_ext _ _ Twice). repeat split.
  - rewrite map_map. rewrite (map_ext _ _ Twice). reflexivity.
Qed.

Lemma update_drive_replaces_in_place_witness :
  drives (drivingReducer 0 5 (drivingReducer 0 5 loadedState (ADD_DRIVE (drive_on "7" 5)))
            (UPDATE_DRIVE (drive_on "8" 6))) =
  drives (drivingReducer 0 5 loadedState (ADD_DRIVE (drive_on "7" 5))).
Proof.
  destruct (update_drive_replaces_in_place 0 5
              (drivingReducer 0 5 loadedState (ADD_DRIVE (drive_on "7" 5)))
              (drive_on "8" 6))
    as (_ & _ & _ & _ & Absent & _).
  apply Absent. simpl. intros d [<-|[]]. discriminate.
Defined.

Lemma update_keeps_ids (payload : Drive) (l : list Drive) :
  map id (map (fun drive => if String.eqb (id drive) (id payload) then payload else drive) l)
  = map id l.
Proof.
  rewrite map_map. apply map_ext. intros d.
  destruct (String.eqb_spec (id d) (id payload)); congruence.
Qed.

(** X9.  Distinct ids stay distinct: if no two drives share an id, then after
    any action they still do not, provided an added drive comes with an id
    that is not in use and loaded drives have distinct ids. *)
Theorem ids_stay_distinct : forall zone today state a,
  unique_ids (drives state) ->
  brings_distinct_ids state a ->
  unique_ids (drives (drivingReducer zone today state a)).
Proof.
  intros zone today state a U B. unfold unique_ids in *.
  destruct a; cbn in *; try exact U.
  - destruct (p_drives payload); [exact B|exact U].
  - rewrite map_app. simpl. apply NoDup_app; [exact U|constructor; [intros []|constructor]|].
    intros i Hi [<-|[]]. exact (B Hi).
  - rewrite update_keeps_ids. exact U.
  - induction (drives state) as [|x l IH]; simpl; [constructor|].
    inversion U as [|? ? Nx U']; subst.
    destruct (negb (String.eqb (id x) payload)); simpl; [|apply IH, U'].
    constructor; [|apply IH, U'].
    intros H. apply Nx. apply in_map_iff in H. destruct H as (d & E & Hd).
    apply filter_In in Hd. apply in_map_iff. exists d. tauto.
  - constructor.
Qed.

Lemma ids_stay_distinct_witness :
  let state := drivingReducer 0 6
                 (drivingReducer 0 5 loadedState (ADD_DRIVE (drive_on "7" 5)))
                 (ADD_DRIVE (drive_on "8" 6)) in
  unique_ids (drives (drivingReducer 0 6 state (ADD_DRIVE (drive_on "9" 6)))) /\
  unique_ids (drives (drivingReducer 0 7 state (DELETE_DRIVE "7"))).
Proof.
  assert (U : unique_ids [drive_on "7" 5; drive_on "8" 6]).
  { unfold unique_ids. simpl.
    constructor; [simpl; intuition discriminate|].
    constructor; [simpl; tauto|constructor]. }
  split.
  - apply ids_stay_distinct; [exact U|]. simpl. intuition discriminate.
  - apply ids_stay_distinct; [exact U|]. exact I.
Defined.

(** X10.  [n] uses of a freeze day add [n] to both counters and touch
    nothing else; afterwards [canUseFreezeDay] holds exactly when the month
    counter is still below 10, so from a fresh month it refuses after the
    tenth use and not before. *)
Theorem freeze_days_count_up : forall zone today state n,
  let state' := Nat.iter n (fun s => drivingReducer zone today s USE_FREEZE_DAY) state in
  freezeDaysThisMonth (streaks state') = freezeDaysThisMonth (streaks state) + Z.of_nat n /\
  freezeDaysUsed (streaks state') = freezeDaysUsed (streaks state) + Z.of_nat n /\
  (canUseFreezeDay (freezeDaysThisMonth (streaks state')) defaultMaxFreezeDaysPerMonth = true
   <-> freezeDaysThisMonth (streaks state) + Z.of_nat n < 10) /\
  user state' = user state /\ drives state' = drives state /\
  settings state' = settings state /\
  current (streaks state') = current (streaks state) /\
  longest (streaks state') = longest (streaks state) /\
  lastDriveDate (streaks state') = lastDriveDate (streaks state) /\
  lastFreezeReset (streaks state') = lastFreezeReset (streaks state) /\
  loading state' = loading state /\ error state' = error state.
Proof.
  intros zone today state n. cbv zeta.
  assert (H : freezeDaysThisMonth
                (streaks (Nat.iter n (fun s => drivingReducer zone today s USE_FREEZE_DAY) state))
              = freezeDaysThisMonth (streaks state) + Z.of_nat n /\
              freezeDaysUsed
                (streaks (Nat.iter n (fun s => drivingReducer zone today s USE_FREEZE_DAY) state))
              = freezeDaysUsed (streaks state) + Z.of_nat n /\
              user (Nat.iter n (fun s => drivingReducer zone today s USE_FREEZE_DAY) state)
              = user state /\
              drives (Nat.iter n (fun s => drivingReducer zone today s USE_FREEZE_DAY) state)
              = drives state /\
              settings (Nat.iter n (fun s => drivingReducer zone today s USE_FREEZE_DAY) state)
              = settings state /\
              current (streaks (Nat.iter n (fun s => drivingReducer zone today s USE_FREEZE_DAY) state))
              = current (streaks state) /\
              longest (streaks (Nat.iter n (fun s => drivingReducer zone today s USE_FREEZE_DAY) state))
              = longest (streaks state) /\
              lastDriveDate
                (streaks (Nat.iter n (fun s => drivingReducer zone today s USE_FREEZE_DAY) state))
              = lastDriveDate (streaks state) /\
              lastFreezeReset
                (streaks (Nat.iter n (fun s => drivingReducer zone today s USE_FREEZE_DAY) state))
              = lastFreezeReset (streaks state) /\
              loading (Nat.iter n (fun s => drivingReducer zone today s USE_FREEZE_DAY) state)
              = loading state /\
              error (Nat.iter n (fun s => drivingReducer zone today s USE_FREEZE_DAY) state)
              = error state).
  { induction n as [|n IH].
    - simpl. repeat split; lia.
    - rewrite Nat.iter_succ.
      set (before := Nat.iter n (fun s => drivingReducer zone today s USE_FREEZE_DAY) state) in *.
      destruct IH as (A & B & C & D & E & F & G & H1 & H2 & H3 & H4).
      rewrite Nat2Z.inj_succ. cbn -[Z.of_nat Z.add Z.succ].
      repeat split; try assumption; lia. }
  destruct H as (A & B & C & D & E & F & G & H1 & H2 & H3 & H4).
  repeat split; try assumption.
  - rewrite A. unfold canUseFreezeDay, defaultMaxFreezeDaysPerMonth.
    intros H. apply Z.ltb_lt in H. exact H.
  - rewrite A. unfold canUseFreezeDay, defaultMaxFreezeDaysPerMonth.
    intros H. apply Z.ltb_lt. exact H.
Qed.

Lemma handleFreezeDay_step (zone today : Z) (confirmed : bool) (state : State) :
  freezeDaysThisMonth (streaks state) <= 10 ->
  freezeDaysThisMonth (streaks state)
    <= freezeDaysThisMonth (streaks (handleFreezeDay zone today confirmed state)) <= 10.
Proof.
  intros H. unfold handleFreezeDay, canUseFreezeDay, defaultMaxFreezeDaysPerMonth.
  destruct (freezeDaysThisMonth (streaks state) <? 10) eqn:E; simpl; [|lia].
  apply Z.ltb_lt in E. destruct confirmed; simpl; lia.
Qed.

(** X11.  Through the dashboard's [handleFreezeDay] the month counter never
    passes 10 and never goes down, whatever the user answers and however
    often the button is pressed; once the counter is at 10 or more a press
    changes nothing. *)
Theorem dashboard_keeps_freeze_cap : forall zone today answers state,
  let state' := fold_left (fun s confirmed => handleFreezeDay zone today confirmed s)
                          answers state in
  (freezeDaysThisMonth (streaks state) <= 10 ->
   freezeDaysThisMonth (streaks state)
     <= freezeDaysThisMonth (streaks state') <= 10) /\
  (10 <= freezeDaysThisMonth (streaks state) -> state' = state).
Proof.
  intros zone today answers. induction answers as [|c answers IH]; intros state; cbv zeta.
  - simpl. split; [lia|reflexivity].
  - simpl. specialize (IH (handleFreezeDay zone today c state)). cbv zeta in IH.
    destruct IH as (Cap & Full). split.
    + intros H. pose proof (handleFreezeDay_step zone today c state H). lia.
    + intros H.
      assert (E : handleFreezeDay zone today c state = state).
      { unfold handleFreezeDay, canUseFreezeDay, defaultMaxFreezeDaysPerMonth.
        replace (freezeDaysThisMonth (streaks state) <? 10) with false; [reflexivity|].
        symmetry. apply Z.ltb_ge. exact H. }
      rewrite E in *. apply Full, H.
Qed.

Lemma dashboard_keeps_freeze_cap_witness :
  freezeDaysThisMonth
    (streaks (fold_left (fun s confirmed => handleFreezeDay 0 5 confirmed s)
                        [true; false; true] loadedState)) <= 10.
Proof.
  destruct (dashboard_keeps_freeze_cap 0 5 [true; false; true] loadedState) as (Cap & _).
  apply Cap. simpl. lia.
Defined.

(** X12.  The duration the logging screen records is at least one minute
    whatever the timer shows, and from one minute on it is the elapsed time
    in whole minutes, the seconds dropped; so logging a drive through
    [ADD_DRIVE] with that duration always raises the total hours. *)
Theorem logged_duration_at_least_a_minute : forall elapsedTime,
  1 <= actualDurationMinutes elapsedTime /\
  (elapsedTime < 120000 -> actualDurationMinutes elapsedTime = 1) /\
  (60000 <= elapsedTime ->
   60000 * actualDurationMinutes elapsedTime <= elapsedTime
     < 60000 * (actualDurationMinutes elapsedTime + 1)) /\
  (forall zone today state payload,
     duration payload = actualDurationMinutes elapsedTime ->
     (total_hours state < total_hours (drivingReducer zone today state (ADD_DRIVE payload)))%Q).
Proof.
  intros elapsedTime. unfold actualDurationMinutes.
  pose proof (Z.div_mod elapsedTime 60000 ltac:(lia)) as DM.
  pose proof (Z.mod_pos_bound elapsedTime 60000 ltac:(lia)) as MB.
  split; [lia|]. split; [|split].
  - intros H. assert (elapsedTime / 60000 <= 1) by lia. lia.
  - intros H. assert (1 <= elapsedTime / 60000) by lia.
    rewrite Z.max_r by lia. lia.
  - intros zone today state payload D. unfold total_hours. cbn.
    unfold hours_of. rewrite D.
    assert (P : (0 < inject_Z (Z.max 1 (elapsedTime / 60000)) / 60)%Q).
    { apply Qlt_shift_div_l; [reflexivity|]. rewrite Qmult_0_l.
      replace 0%Q with (inject_Z 0) by reflexivity. rewrite <- Zlt_Qlt. lia. }
    destruct (isNightDrive payload).
    + rewrite Qplus_0_r.
      apply Qplus_lt_r. rewrite <- (Qplus_0_r (completedNightHours (user state))) at 1.
      apply Qplus_lt_r. exact P.
    + rewrite Qplus_0_r.
      apply Qplus_lt_l. rewrite <- (Qplus_0_r (completedDayHours (user state))) at 1.
      apply Qplus_lt_r. exact P.
Qed.

Lemma logged_duration_at_least_a_minute_witness :
  (total_hours loadedState <
   total_hours (drivingReducer 0 5 loadedState (ADD_DRIVE (drive_on "7" 5))))%Q /\
  actualDurationMinutes 59999 = 1 /\
  60000 * actualDurationMinutes 125000 <= 125000.
Proof.
  destruct (logged_duration_at_least_a_minute 59999) as (_ & Short & _ & _).
  destruct (logged_duration_at_least_a_minute 125000) as (_ & _ & Long & _).
  destruct (logged_duration_at_least_a_minute 3600000) as (_ & _ & _ & Raise).
  split; [apply Raise; reflexivity|].
  split; [apply Short; lia|].
  apply Long. lia.
Defined.

(* ================================================================== *)
(** ** More on the time utilities *)

Lemma valid_time_minutes (time : string) :
  isValidTime time = true ->
  exists a, 0 <= a < 1440 /\ timeToMinutes time = Some (Fin a).
Proof.
  intros V. destruct (timeToMinutes_of_valid time V) as (h & m & Hh & Hm & E).
  exists (h * 60 + m). split; [lia|exact E].
Qed.

(** X13.  Between two valid times [calculateDuration] is the distance on the
    24-hour clock from start to end, [(end - start) mod 1440]: a number from
    0 to 1439, 0 exactly when both are the same minute (never 24 hours), and
    otherwise the two directions add up to 1440. *)
Theorem calculateDuration_on_the_clock : forall startTime endTime,
  isValidTime startTime = true -> isValidTime endTime = true ->
  exists a b,
    timeToMinutes startTime = Some (Fin a) /\
    timeToMinutes endTime = Some (Fin b) /\
    calculateDuration startTime endTime = Some (Fin ((b - a) mod 1440)) /\
    0 <= (b - a) mod 1440 < 1440 /\
    ((b - a) mod 1440 = 0 <-> a = b) /\
    (a <> b ->
     calculateDuration endTime startTime = Some (Fin (1440 - (b - a) mod 1440))).
Proof.
  intros s e Vs Ve.
  destruct (valid_time_minutes s Vs) as (a & Ha & Ea).
  destruct (valid_time_minutes e Ve) as (b & Hb & Eb).
  exists a, b. split; [exact Ea|]. split; [exact Eb|].
  unfold calculateDuration. rewrite Ea, Eb.
  cbn [num_lt num_add num_sub]. change (24 * 60) with 1440.
  destruct (Z.ltb_spec b a) as [L|G].
  - assert (M : (b - a) mod 1440 = 1440 - a + b).
    { symmetry. apply (Z.mod_unique_pos _ _ (-1)); lia. }
    rewrite M. split; [reflexivity|]. split; [lia|]. split; [lia|].
    intros _. destruct (Z.ltb_spec a b); [lia|]. f_equal. f_equal. lia.
  - assert (M : (b - a) mod 1440 = b - a) by (apply Z.mod_small; lia).
    rewrite M. split; [reflexivity|]. split; [lia|]. split; [lia|].
    intros N. destruct (Z.ltb_spec a b); [|lia]. f_equal. f_equal. lia.
Qed.

Lemma calculateDuration_on_the_clock_witness :
  exists a b,
    timeToMinutes "23:30" = Some (Fin a) /\
    timeToMinutes "00:15" = Some (Fin b) /\
    calculateDuration "23:30" "00:15" = Some (Fin ((b - a) mod 1440)) /\
    0 <= (b - a) mod 1440 < 1440 /\
    ((b - a) mod 1440 = 0 <-> a = b) /\
    (a <> b ->
     calculateDuration "00:15" "23:30" = Some (Fin (1440 - (b - a) mod 1440))).
Proof.
  apply (calculateDuration_on_the_clock "23:30" "00:15"); reflexivity.
Defined.

(** X14.  For valid times [isNightTime] always answers, and both ends of the
    night window belong to the night, whether or not the window passes
    midnight. *)
Theorem night_window_includes_its_ends : forall time nightStart nightEnd,
  isValidTime time = true ->
  isValidTime nightStart = true -> isValidTime nightEnd = true ->
  (exists answer, isNightTime time nightStart nightEnd = Some answer) /\
  isNightTime nightStart nightStart nightEnd = Some true /\
  isNightTime nightEnd nightStart nightEnd = Some true.
Proof.
  intros t s e Vt Vs Ve.
  destruct (valid_time_minutes t Vt) as (c & Hc & Ec).
  destruct (valid_time_minutes s Vs) as (a & Ha & Ea).
  destruct (valid_time_minutes e Ve) as (b & Hb & Eb).
  unfold isNightTime. rewrite Ec, Ea, Eb. cbn [num_gt num_ge num_le].
  split; [eexists; reflexivity|].
  rewrite !Z.geb_leb.
  split; f_equal; destruct (Z.gtb_spec a b);
    repeat match goal with
           | |- context [?x <=? ?y] => destruct (Z.leb_spec x y)
           end; simpl; try reflexivity; lia.
Qed.

Lemma night_window_includes_its_ends_witness :
  isNightTime "18:00" "18:00" "06:00" = Some true /\
  isNightTime "06:00" "18:00" "06:00" = Some true.
Proof.
  destruct (night_window_includes_its_ends "12:00" "18:00" "06:00") as (_ & A & B);
    [reflexivity|reflexivity|reflexivity|].
  split; [exact A|exact B].
Defined.

(** X15.  Exchanging the start and the end of the night window turns night
    into day and day into night for every valid time other than the two ends
    themselves (the two ends being different minutes). *)
Theorem swapped_window_is_the_complement : forall time nightStart nightEnd,
  isValidTime time = true ->
  isValidTime nightStart = true -> isValidTime nightEnd = true ->
  timeToMinutes time <> timeToMinutes nightStart ->
  timeToMinutes time <> timeToMinutes nightEnd ->
  timeToMinutes nightStart <> timeToMinutes nightEnd ->
  exists answer,
    isNightTime time nightStart nightEnd = Some answer /\
    isNightTime time nightEnd nightStart = Some (negb answer).
Proof.
  intros t s e Vt Vs Ve Nts Nte Nse.
  destruct (valid_time_minutes t Vt) as (c & Hc & Ec).
  destruct (valid_time_minutes s Vs) as (a & Ha & Ea).
  destruct (valid_time_minutes e Ve) as (b & Hb & Eb).
  rewrite Ec, Ea in Nts. rewrite Ec, Eb in Nte. rewrite Ea, Eb in Nse.
  assert (c <> a) by congruence. assert (c <> b) by congruence.
  assert (a <> b) by congruence.
  unfold isNightTime. rewrite Ec, Ea, Eb. cbn [num_gt num_ge num_le].
  eexists. split; [reflexivity|]. f_equal.
  destruct (Z.gtb_spec a b), (Z.gtb_spec b a); try lia;
    rewrite !Z.geb_leb;
    destruct (Z.leb_spec a c), (Z.leb_spec c b), (Z.leb_spec b c), (Z.leb_spec c a);
    simpl; try reflexivity; lia.
Qed.

Lemma swapped_window_is_the_complement_witness :
  exists answer,
    isNightTime "23:30" "22:00" "05:00" = Some answer /\
    isNightTime "23:30" "05:00" "22:00" = Some (negb answer).
Proof.
  apply (swapped_window_is_the_complement "23:30" "22:00" "05:00");
    try reflexivity; discriminate.
Defined.

(** X16.  A text that [timeToMinutes] turns into [NaN] is passed on silently:
    as the time, as the start or as the end of the window it makes
    [isNightTime] answer "day", and as either argument it makes
    [calculateDuration] return [NaN]. *)
Theorem NaN_time_counts_as_day : forall time other x,
  timeToMinutes time = Some NaN ->
  timeToMinutes other = Some x ->
  calculateDuration time other = Some NaN /\
  calculateDuration other time = Some NaN /\
  (forall s e y z, timeToMinutes s = Some y -> timeToMinutes e = Some z ->
     isNightTime time s e = Some false /\
     isNightTime s time e = Some false /\
     isNightTime s e time = Some false).
Proof.
  intros time other x N O. unfold calculateDuration, isNightTime.
  rewrite N, O. split; [destruct x; reflexivity|]. split; [destruct x; reflexivity|].
  intros s e y z Es Ee. rewrite Es, Ee.
  destruct y as [|y], z as [|z]; cbn [num_gt num_ge num_le];
    repeat split;
    repeat match goal with
           | |- context [if ?c then _ else _] => destruct c
           end;
    rewrite ?andb_false_r, ?orb_false_r; reflexivity.
Qed.

Lemma NaN_time_counts_as_day_witness :
  calculateDuration "" "10:00" = Some NaN /\
  isNightTime "9pm" "18:00" "06:00" = Some false.
Proof.
  destruct (NaN_time_counts_as_day "" "10:00" (Fin 600) eq_refl eq_refl) as (D & _).
  destruct (NaN_time_counts_as_day "9pm" "10:00" (Fin 600) eq_refl eq_refl)
    as (_ & _ & Night).
  destruct (Night "18:00"%string "06:00"%string (Fin 1080) (Fin 360) eq_refl eq_refl)
    as (A & _).
  split; [exact D|exact A].
Defined.

(** X17.  [calculateAge] counts whole years from the birth date as
    [new Date(birthDate)] shows it through the local getters: the
    anniversary that many years after that date is not after today, and the
    next one is; no other number has this property.  At and east of UTC the
    date read is the day the text names; west of UTC it is the day before. *)
Theorem calculateAge_counts_whole_years : forall zone birthDate today,
  let birth := birth_as_read zone birthDate in
  let age := calculateAge zone birthDate today in
  ~ earlier today (years_on age birth) /\
  earlier today (years_on (age + 1) birth) /\
  (forall n, ~ earlier today (years_on n birth) ->
             earlier today (years_on (n + 1) birth) -> n = age) /\
  (0 <= zone < 1440 -> birth = date_of_day birthDate) /\
  (-1440 <= zone < 0 -> birth = date_of_day (birthDate - 1)).
Proof.
  intros zone birthDate today. cbv zeta.
  split; [|split; [|split; [|split]]].
  4: { intros East. unfold birth_as_read. rewrite local_day_east by exact East.
       reflexivity. }
  4: { intros West. unfold birth_as_read. rewrite local_day_west by exact West.
       reflexivity. }
  all: unfold calculateAge; cbv zeta;
    destruct (birth_as_read zone birthDate) as [by_ bm bd];
    destruct today as [ty tm td]; unfold earlier, years_on;
    cbn [getFullYear getMonth getDate];
    destruct (Z.ltb_spec (tm - bm) 0) as [M|M];
      [|destruct (Z.eqb_spec (tm - bm) 0) as [E|E];
        [destruct (Z.ltb_spec td bd) as [D|D]|]];
    cbn [orb andb]; try lia; intros n A B; lia.
Qed.

(** Born on 2008-03-15: on 14 March 2024 the age is 15 at UTC and 16 five
    hours west of it, where the birth date is read as 14 March. *)
Lemma calculateAge_counts_whole_years_witness :
  15 = calculateAge 0 (ymd 2008 3 15) (mkCalendarDate 2024 2 14) /\
  16 = calculateAge (-300) (ymd 2008 3 15) (mkCalendarDate 2024 2 14) /\
  birth_as_read 0 (ymd 2008 3 15) = mkCalendarDate 2008 2 15 /\
  birth_as_read (-300) (ymd 2008 3 15) = mkCalendarDate 2008 2 14.
Proof.
  destruct (calculateAge_counts_whole_years
              0 (ymd 2008 3 15) (mkCalendarDate 2024 2 14)) as (_ & _ & Only & East & _).
  destruct (calculateAge_counts_whole_years
              (-300) (ymd 2008 3 15) (mkCalendarDate 2024 2 14))
    as (_ & _ & Only' & _ & West).
  split; [|split; [|split]].
  - apply Only; clear; vm_compute; intuition discriminate.
  - apply Only'; clear; vm_compute; intuition discriminate.
  - rewrite East by lia. reflexivity.
  - rewrite West by lia. reflexivity.
Defined.

(* ================================================================== *)
(** ** More on the persistent store *)

(** The validation of [loadData] as one step: it throws on [null] and
    otherwise answers with the negation of [valid_document]. *)
Lemma structure_invalid_result (data : json) (fs : FileSystem) :
  structure_invalid data fs =
  match data with
  | JNull => (Thrown TypeError, fs)
  | _ => (Returned (negb (valid_document data)), fs)
  end.
Proof.
  destruct data as [| | | | |fields]; try reflexivity.
  unfold structure_invalid, valid_document, property, bind, ret.
  destruct (truthy (lookup "user" fields)); [|reflexivity].
  destruct (truthy (lookup "drives" fields)); [|reflexivity].
  destruct (truthy (lookup "streaks" fields)); reflexivity.
Qed.

Lemma valid_not_null (data : json) (fs : FileSystem) :
  valid_document data = true ->
  structure_invalid data fs = (Returned false, fs).
Proof.
  intros V. rewrite structure_invalid_result, V.
  destruct data; try reflexivity. discriminate V.
Qed.

(** X18.  Round trip: on a device that rejects nothing, a valid document
    that was saved is what the next [loadData] returns, and that load writes
    nothing. *)
Theorem save_then_load_round_trip : forall data fs,
  valid_document data = true ->
  faults fs = [] ->
  let saved := snd (saveData data fs) in
  fst (saveData data fs) = Returned true /\
  fst (loadData saved) = Returned data /\
  mainFile (snd (loadData saved)) = mainFile saved /\
  backupFile (snd (loadData saved)) = backupFile saved.
Proof.
  intros data [dir main backup faults0 journal0] V F. simpl in F. subst faults0.
  destruct dir, main as [t|]; cbv -[structure_invalid valid_document app];
    rewrite (valid_not_null _ _ V); repeat split.
Qed.

Lemma save_then_load_round_trip_witness :
  fst (loadData (snd (saveData DEFAULT_DATA (mkFS false None None [] [])))) =
  Returned DEFAULT_DATA.
Proof.
  destruct (save_then_load_round_trip DEFAULT_DATA (mkFS false None None [] []))
    as (_ & L & _); [reflexivity|reflexivity|exact L].
Defined.

(** X20.  Loading a valid primary reads and writes nothing else: on a device
    that rejects nothing, [loadData] returns the parsed primary and leaves
    both files as they are, whatever the backup holds. *)
Theorem load_of_valid_primary_reads_only : forall data fs,
  mainFile fs = Some (Stringified data) ->
  valid_document data = true ->
  faults fs = [] ->
  fst (loadData fs) = Returned data /\
  mainFile (snd (loadData fs)) = mainFile fs /\
  backupFile (snd (loadData fs)) = backupFile fs /\
  (forall c, In c (journal (snd (loadData fs))) ->
             In c (journal fs) \/
             c = GetInfo DATA_DIR \/ c = MakeDirectory DATA_DIR \/
             c = GetInfo MAIN_DATA_FILE \/ c = ReadAsString MAIN_DATA_FILE).
Proof.
  intros data [dir main backup faults0 journal0] M V F. simpl in M, F. subst.
  destruct dir; cbv -[structure_invalid valid_document app In];
    rewrite (valid_not_null _ _ V); cbv -[app In]; repeat split;
    intros c Hc; rewrite !in_app_iff in Hc; simpl in Hc; intuition auto.
Qed.

Lemma load_of_valid_primary_reads_only_witness :
  fst (loadData device_after_first_run) = Returned DEFAULT_DATA.
Proof.
  destruct (load_of_valid_primary_reads_only DEFAULT_DATA device_after_first_run)
    as (L & _); [reflexivity|reflexivity|reflexivity|exact L].
Defined.

(** X21.  First run: with no primary file, on a device that rejects nothing,
    [loadData] returns the default document, creates the directory if it is
    missing, writes the default document to the primary and leaves the
    backup as it is. *)
Theorem first_run_creates_default : forall fs,
  mainFile fs = None ->
  faults fs = [] ->
  fst (loadData fs) = Returned DEFAULT_DATA /\
  dirExists (snd (loadData fs)) = true /\
  mainFile (snd (loadData fs)) = Some (JSON_stringify DEFAULT_DATA) /\
  backupFile (snd (loadData fs)) = backupFile fs.
Proof.
  intros [dir main backup faults0 journal0] M F. simpl in M, F. subst.
  destruct dir; cbn; repeat split.
Qed.

Lemma first_run_creates_default_witness :
  fst (loadData (mkFS false None None [] [])) = Returned DEFAULT_DATA.
Proof.
  destruct (first_run_creates_default (mkFS false None None [] [])) as (L & _);
    [reflexivity|reflexivity|exact L].
Defined.

(** X22.  Reset: on a device that rejects nothing, [clearAllData] returns
    true and removes both files, and the next [loadData] starts over with
    the default document. *)
Theorem clear_then_load_starts_over : forall fs,
  faults fs = [] ->
  let cleared := snd (clearAllData fs) in
  fst (clearAllData fs) = Returned true /\
  mainFile cleared = None /\ backupFile cleared = None /\
  fst (loadData cleared) = Returned DEFAULT_DATA /\
  mainFile (snd (loadData cleared)) = Some (JSON_stringify DEFAULT_DATA) /\
  backupFile (snd (loadData cleared)) = None.
Proof.
  intros [dir main backup faults0 journal0] F. simpl in F. subst.
  destruct dir, main, backup; cbn; repeat split.
Qed.

Lemma clear_then_load_starts_over_witness :
  fst (loadData (snd (clearAllData device_after_first_run))) = Returned DEFAULT_DATA.
Proof.
  destruct (clear_then_load_starts_over device_after_first_run) as (_ & _ & _ & L & _);
    [reflexivity|exact L].
Defined.

(** [clearAllData] returns a boolean on every device, and [false] only when
    a call was rejected. *)
Lemma clearAllData_returns : forall fs,
  exists b fs', clearAllData fs = (Returned b, fs').
Proof.
  unfold clearAllData. apply try_catch_returns.
  intros e fs; exists false, fs; reflexivity.
Qed.

(** X23.  One generation behind: after two saves on a device that rejects
    nothing the backup holds the first document; if the primary then becomes
    unusable (it no longer parses, or fails the validation), [loadData]
    returns the first document and makes it the primary again. *)
Theorem backup_is_one_generation_behind : forall first second fs broken,
  faults fs = [] ->
  unusable broken = true ->
  let saved := snd (saveData second (snd (saveData first fs))) in
  mainFile saved = Some (JSON_stringify second) /\
  backupFile saved = Some (JSON_stringify first) /\
  let damaged := mkFS (dirExists saved) (Some broken) (backupFile saved)
                      [] (journal saved) in
  fst (loadData damaged) = Returned first /\
  mainFile (snd (loadData damaged)) = Some (JSON_stringify first).
Proof.
  intros first second [dir main backup faults0 journal0] broken F U.
  simpl in F. subst.
  destruct broken as [raw|value].
  - destruct dir, main; cbn; repeat split.
  - simpl in U. apply negb_true_iff in U.
    assert (S : forall fs', structure_invalid value fs' =
                            match value with
                            | JNull => (Thrown TypeError, fs')
                            | _ => (Returned true, fs')
                            end).
    { intros fs'. rewrite structure_invalid_result, U. reflexivity. }
    destruct dir, main; cbv -[structure_invalid valid_document app];
      rewrite S; destruct value; repeat split.
Qed.

Lemma backup_is_one_generation_behind_witness :
  let saved := snd (saveData (JObj []) (snd (saveData DEFAULT_DATA
                                               (mkFS false None None [] [])))) in
  fst (loadData (mkFS (dirExists saved) (Some (Malformed "{")) (backupFile saved)
                      [] (journal saved))) = Returned DEFAULT_DATA.
Proof.
  destruct (backup_is_one_generation_behind DEFAULT_DATA (JObj [])
              (mkFS false None None [] []) (Malformed "{"))
    as (_ & _ & L & _); [reflexivity|reflexivity|exact L].
Defined.

(** X24.  A save that fails loses nothing: whenever [saveData] returns
    false, the primary file is what it was, and the backup is what it was or
    a copy of that primary. *)
Theorem failed_save_keeps_primary : forall data fs,
  fst (saveData data fs) = Returned false ->
  mainFile (snd (saveData data fs)) = mainFile fs /\
  (backupFile (snd (saveData data fs)) = backupFile fs \/
   backupFile (snd (saveData data fs)) = mainFile fs).
Proof.
  intros data [dir main backup faults0 journal0].
  destruct dir, main as [previous|];
    destruct faults0 as [|[] [|[] [|[] [|[] [|[] ?]]]]];
    cbn; intros H; try discriminate H; split; auto.
Qed.

Lemma failed_save_keeps_primary_witness :
  mainFile (snd (saveData (JObj [])
                   (mkFS true (Some (Stringified DEFAULT_DATA)) None
                         [false; false; false; true] []))) =
  Some (Stringified DEFAULT_DATA).
Proof.
  destruct (failed_save_keeps_primary (JObj [])
              (mkFS true (Some (Stringified DEFAULT_DATA)) None
                    [false; false; false; true] [])) as (M & _);
    [reflexivity|exact M].
Defined.

(** X25.  [exportDataAsJSON] never returns [null]: on every device it
    returns the serialisation of what [loadData] returns there, with the
    same effect on the device. *)
Theorem export_is_the_loaded_document : forall fs,
  exists data fs',
    loadData fs = (Returned data, fs') /\
    exportDataAsJSON fs = (Returned (Some (JSON_stringify data)), fs').
Proof.
  intros fs. destruct (loadData_returns fs) as (data & fs' & E).
  exists data, fs'. split; [exact E|].
  unfold exportDataAsJSON, try_catch, bind. rewrite E. reflexivity.
Qed.

Ltac run_load :=
  repeat first
    [ rewrite structure_invalid_result
    | match goal with
      | |- context [saveData ?d ?f] =>
          let b := fresh "b" in
          let f' := fresh "fs" in
          let E := fresh "E" in
          destruct (saveData_returns d f) as (b & f' & E); rewrite E
      | |- context [valid_document ?j] =>
          is_var j; destruct (valid_document j) eqn:?
      | |- context [match ?x with _ => _ end] => is_var x; destruct x
      end
    | progress cbv -[saveData structure_invalid valid_document app DEFAULT_DATA] ].

(** X19.  [loadData] never throws, and what it returns is never made up: on
    every device, whatever calls are rejected, the result is the default
    document, or the value of the primary file, which then passed the
    validation, or the value of the backup file. *)
Theorem loadData_result_comes_from_the_files : forall fs,
  exists data fs',
    loadData fs = (Returned data, fs') /\
    (data = DEFAULT_DATA \/
     (mainFile fs = Some (Stringified data) /\ valid_document data = true) \/
     backupFile fs = Some (Stringified data)).
Proof.
  intros [dir main backup faults0 journal0]. unfold loadData.
  run_load;
    (eexists; eexists; split; [reflexivity|]);
    cbn [mainFile backupFile]; auto.
Qed.

(* ================================================================== *)
(** ** Streaks and the drive list *)

Lemma current_monotone (zone today : Z) (drives drives' : list Drive) :
  (forall z, drove_on drives z = true -> drove_on drives' z = true) ->
  calculateCurrentStreak zone today drives <= calculateCurrentStreak zone today drives'.
Proof.
  intros Sub0.
  assert (Sub : forall z, read_on zone drives z = true -> read_on zone drives' z = true).
  { intros z. rewrite !read_on_drove_on. apply Sub0. }
  pose proof (current_streak_characterised zone today drives) as (A1 & A2 & A3).
  pose proof (current_streak_characterised zone today drives') as (B1 & B2 & B3).
  pose proof (current_nonneg zone today drives') as N'.
  cbv zeta in *.
  destruct (read_on zone drives today) eqn:T.
  - destruct (A1 eq_refl) as (K1 & Run1 & Stop1).
    destruct (B1 (Sub _ T)) as (K2 & Run2 & Stop2).
    set (k1 := calculateCurrentStreak zone today drives) in *.
    set (k2 := calculateCurrentStreak zone today drives') in *.
    destruct (Z_lt_le_dec k2 k1) as [L|G]; [|exact G].
    specialize (Run1 k2 ltac:(lia)). apply Sub in Run1. congruence.
  - destruct (read_on zone drives (today - 1)) eqn:Y.
    + rewrite (A2 eq_refl eq_refl).
      destruct (read_on zone drives' today) eqn:T'.
      * destruct (B1 eq_refl). lia.
      * rewrite (B2 eq_refl (Sub _ Y)). lia.
    + rewrite (A3 eq_refl eq_refl). exact N'.
Qed.

Lemma drove_on_filter_sub (keep : Drive -> bool) (l : list Drive) (z : Z) :
  drove_on (filter keep l) z = true -> drove_on l z = true.
Proof.
  rewrite !drove_on_In. intros (d & Hd & E). exists d.
  apply filter_In in Hd. tauto.
Qed.

(** X26.  On a given day, in whatever zone, logging a further drive never lowers the current
    streak and removing drives never raises it; removing drives never raises
    the longest streak either. *)
Theorem streaks_follow_the_drive_list : forall zone today drives payload keep,
  calculateCurrentStreak zone today drives
    <= calculateCurrentStreak zone today (drives ++ [payload]) /\
  calculateCurrentStreak zone today (filter keep drives)
    <= calculateCurrentStreak zone today drives /\
  calculateLongestStreak (filter keep drives) <= calculateLongestStreak drives.
Proof.
  intros zone today drives payload keep. split; [|split].
  - apply current_monotone. intros z H. rewrite drove_on_app, H. reflexivity.
  - apply current_monotone. apply drove_on_filter_sub.
  - apply longest_monotone. apply drove_on_filter_sub.
Qed.

(** X27.  In every state reachable from the initial state by the
    Coordinator's transitions the counters are sound: the streaks are not
    negative, and the month's freeze days are not negative and not more than
    the freeze days used in all. *)
Theorem reachable_counters_sound : forall state,
  reachable state ->
  0 <= current (streaks state) /\
  0 <= longest (streaks state) /\
  0 <= freezeDaysThisMonth (streaks state) <= freezeDaysUsed (streaks state).
Proof.
  induction 1 as [|state zone today a R IH T].
  - simpl. lia.
  - destruct a; try discriminate T; cbn; try exact IH.
    + pose proof (current_nonneg zone today (drives state ++ [payload])). lia.
    + split; [apply current_nonneg|]. split; [apply longest_nonneg|lia].
    + split; [apply current_nonneg|]. split; [apply longest_nonneg|lia].
    + lia.
    + lia.
Qed.

Lemma reachable_counters_sound_witness :
  let state := drivingReducer (-300) 9 (drivingReducer 0 3 initialState USE_FREEZE_DAY)
                 (ADD_DRIVE (drive_on "a" 9)) in
  0 <= current (streaks state) /\
  0 <= longest (streaks state) /\
  0 <= freezeDaysThisMonth (streaks state) <= freezeDaysUsed (streaks state).
Proof.
  apply reachable_counters_sound.
  apply reach_step; [|reflexivity].
  apply reach_step; [|reflexivity].
  apply reach_init.
Defined.
